(** * botvac_tools: the LDS scan container and the scan parser

    A shallow embedding of [botvac_tools/lds/lds.py] (class [Scan]) and
    [botvac_tools/parser/scan_parser.py] (class [ScanParser]), with the
    properties of both that the specification of the package states.

    Conventions of the embedding.
    - A Python [float] is an IEEE 754 binary64 number: Rocq's primitive
      [float], with the same rounding.  numpy's float arrays hold binary64
      too once [np.append] has promoted them.
    - A Python [int] is a [Z].
    - A Python 2 [str] is a [string] of 8-bit characters.
    - A numpy array is a [list]; [np.append arr v] is [arr ++ [v]].  For an
      array of integers this is what numpy does as long as every integer
      appended fits in 64 bits ([Readings.fits_int64]); what is stated of
      the integers that the parser stores is stated for such integers.
    - A method of [Scan] is a function from the object's state to a result
      and the state it leaves: an exception keeps the assignments made
      before it was raised. *)

From Stdlib Require Import Floats ZArith List String Ascii Bool Arith Lia.
From Stdlib Require Import Permutation Sorted.
Import ListNotations.

Set Implicit Arguments.

(* ===================================================================== *)
(** * Python: exceptions, strings, and the builtins float() and int() *)
(* ===================================================================== *)

Module Py.

(** The messages of the [ValueError]s of the package, one constructor per
    [raise] statement, with the values the message is formatted with.
    [could_not_convert] is the [ValueError] of the builtins [float()] and
    [int()] on a string that is no literal, [shapes_do_not_fit] the one of
    numpy on arrays whose lengths do not fit. *)
Inductive message : Type :=
| not_an_available_linear_unit (linear_unit : string)
| not_an_available_angular_unit (angular_unit : string)
| could_not_be_parsed (line : string)
| is_an_invalid_distance (distance : float)
| is_an_invalid_angle (angle : float)
| is_an_invalid_intensity (intense : Z)
| is_an_invalid_error_code (err : Z)
| was_not_an_increase (angle prev_angle : float)
| could_not_convert (literal : string)
| shapes_do_not_fit.

Inductive exn : Type :=
| ValueError (m : message)
| IndexError.

(** What a call gives back: a value, or the exception it raised. *)
Inductive res (A : Type) : Type :=
| Ok (a : A)
| Raise (e : exn).

Arguments Ok {A} a.
Arguments Raise {A} e.

(** The error kinds of the specification, and the kind of each exception.
    [Unclassified] is an exception that belongs to none of the four. *)
Inductive error_kind : Type :=
| InvalidUnit | MalformedRecord | InvalidValue | OutOfOrder | Unclassified.

Definition kind (e : exn) : error_kind :=
  match e with
  | ValueError (not_an_available_linear_unit _)
  | ValueError (not_an_available_angular_unit _) => InvalidUnit
  | ValueError (could_not_be_parsed _) => MalformedRecord
  | ValueError (is_an_invalid_distance _)
  | ValueError (is_an_invalid_angle _)
  | ValueError (is_an_invalid_intensity _)
  | ValueError (is_an_invalid_error_code _) => InvalidValue
  | ValueError (was_not_an_increase _ _) => OutOfOrder
  | ValueError (could_not_convert _) => Unclassified
  | ValueError shapes_do_not_fit => Unclassified
  | IndexError => Unclassified
  end.

(** [x in l] for a list of strings. *)
Definition str_in (x : string) (l : list string) : bool :=
  existsb (String.eqb x) l.

(** [needle in hay] for two strings: [needle] occurs in [hay]. *)
Fixpoint contains (needle hay : string) : bool :=
  String.prefix needle hay ||
  match hay with
  | EmptyString => false
  | String _ hay' => contains needle hay'
  end.

(** The characters [str.split()] splits at: space, tab, line feed,
    vertical tab, form feed and carriage return. *)
Definition isspace (c : ascii) : bool :=
  let n := nat_of_ascii c in
  (n =? 32)%nat || ((9 <=? n)%nat && (n <=? 13)%nat).

(** [s.split()]: the maximal runs of characters that are not white space.
    [word] is the run being read. *)
Fixpoint split_words (word s : string) : list string :=
  match s with
  | EmptyString => if (String.length word =? 0)%nat then [] else [word]
  | String c s' =>
      if isspace c then
        if (String.length word =? 0)%nat then split_words EmptyString s'
        else word :: split_words EmptyString s'
      else split_words (word ++ String c EmptyString) s'
  end.

Definition split (s : string) : list string := split_words EmptyString s.

(** [s.split(sep)] for a separator of one character: the fields between
    the separators, the empty ones too.  [field] is the field being read. *)
Fixpoint split_fields (sep : ascii) (field s : string) : list string :=
  match s with
  | EmptyString => [field]
  | String c s' =>
      if Ascii.eqb c sep then field :: split_fields sep EmptyString s'
      else split_fields sep (field ++ String c EmptyString) s'
  end.

Definition split_at (sep : ascii) (s : string) : list string :=
  split_fields sep EmptyString s.

(** The builtins [float()] and [int()] on a string: the number the string
    is a literal of, or [None] where they raise [ValueError].  The parser
    is stated for any such pair of functions. *)
Record builtins : Type := {
  py_float : string -> option float;
  py_int : string -> option Z
}.

(** A pair of builtins to run the parser on: the optionally signed decimal
    integers of at most fifteen digits, which both [float()] and [int()]
    read, [float()] without rounding.  Python's builtins accept more
    literals than these. *)
Definition digit_of (c : ascii) : option Z :=
  let n := nat_of_ascii c in
  if ((48 <=? n)%nat && (n <=? 57)%nat)%bool then Some (Z.of_nat (n - 48))
  else None.

Fixpoint digits (acc : Z) (s : string) : option Z :=
  match s with
  | EmptyString => Some acc
  | String c s' =>
      match digit_of c with
      | Some d => digits (10 * acc + d)%Z s'
      | None => None
      end
  end.

(** A literal read as its sign and its magnitude. *)
Definition signed_decimal (s : string) : option (bool * Z) :=
  match s with
  | EmptyString => None
  | String c s' =>
      let body := if (Ascii.eqb c "-" || Ascii.eqb c "+")%bool then s' else s in
      if ((String.length body =? 0)%nat || (15 <? String.length body)%nat)%bool
      then None
      else
        match digits 0 body with
        | Some n => Some (Ascii.eqb c "-", n)
        | None => None
        end
  end.

Definition decimal_int (s : string) : option Z :=
  match signed_decimal s with
  | Some (negative, n) => Some (if negative then (- n)%Z else n)
  | None => None
  end.

Definition decimal_float (s : string) : option float :=
  match signed_decimal s with
  | Some (negative, n) =>
      let v := PrimFloat.of_uint63 (Uint63.of_Z n) in
      Some (if negative then PrimFloat.opp v else v)
  | None => None
  end.

Definition decimal_builtins : builtins :=
  {| py_float := decimal_float; py_int := decimal_int |}.

End Py.

Import Py.

(* ===================================================================== *)
(** * numpy: constants, the order of a sort, fancy indexing *)
(* ===================================================================== *)

Module Np.

Open Scope float_scope.

(** [np.pi], the binary64 number closest to pi. *)
Definition pi : float := 0x1.921fb54442d18p+1.

(** [np.append arr v] on a one-dimensional array. *)
Definition append {A : Type} (arr : list A) (v : A) : list A :=
  (arr ++ [v])%list.

(** The order numpy sorts floats by: [a] comes before [b] when [a < b], and
    a number comes before nan, so that the nans end up last. *)
Definition lt (a b : float) : bool :=
  (a <? b) || (PrimFloat.is_nan b && negb (PrimFloat.is_nan a)).

(** [b] does not come before [a]. *)
Definition le (a b : float) : bool := negb (lt b a).

(** [arr[ndxs]] for an array of indices: the elements at these indices;
    an index outside the array raises [IndexError]. *)
Fixpoint take {A : Type} (arr : list A) (ndxs : list nat) : res (list A) :=
  match ndxs with
  | [] => Ok []
  | i :: ndxs' =>
      match nth_error arr i with
      | None => Raise IndexError
      | Some v =>
          match take arr ndxs' with
          | Ok vs => Ok (v :: vs)
          | Raise e => Raise e
          end
      end
  end.

(** The products of the elements of two arrays, index by index. *)
Fixpoint zip_mul (a b : list float) : list float :=
  match a, b with
  | x :: a', y :: b' => (x * y) :: zip_mul a' b'
  | _, _ => []
  end.

(** [a * b] for two one-dimensional arrays: elementwise, an array of one
    element being stretched to the length of the other; other lengths
    that differ raise [ValueError]. *)
Definition multiply (a b : list float) : res (list float) :=
  match a, b with
  | [x], _ => Ok (map (fun y => x * y) b)
  | _, [y] => Ok (map (fun x => x * y) a)
  | _, _ =>
      if (List.length a =? List.length b)%nat then Ok (zip_mul a b)
      else Raise (ValueError shapes_do_not_fit)
  end.

(** [np.vstack((a, b))]: the two arrays as the rows of a matrix; rows of
    different lengths raise [ValueError]. *)
Definition vstack (a b : list float) : res (list (list float)) :=
  if (List.length a =? List.length b)%nat then Ok [a; b]
  else Raise (ValueError shapes_do_not_fit).

(** The functions of numpy that [Scan] calls and that are taken as given:
    [np.argsort], and [np.cos] and [np.sin] at one element. *)
Record numpy : Type := {
  argsort : list float -> list nat;
  cos : float -> float;
  sin : float -> float
}.

(** What [np.argsort] promises: a permutation of the indices of the array
    that lists the keys in ascending order (nans last).  The order of
    equal keys is not promised. *)
Definition sorts (f : list float -> list nat) : Prop :=
  forall keys : list float,
    Permutation (f keys) (seq 0 (List.length keys)) /\
    StronglySorted (fun a b => le a b = true)
                   (map (fun i => nth i keys PrimFloat.nan) (f keys)).

(** A sort that keeps this promise: insertion of each index in turn after
    the indices whose key does not come after its own. *)
Fixpoint insert_ndx (keys : list float) (i : nat) (sorted : list nat)
  : list nat :=
  match sorted with
  | [] => [i]
  | j :: sorted' =>
      if lt (nth i keys PrimFloat.nan) (nth j keys PrimFloat.nan)
      then i :: j :: sorted'
      else j :: insert_ndx keys i sorted'
  end.

Definition insertion_argsort (keys : list float) : list nat :=
  fold_left (fun sorted i => insert_ndx keys i sorted)
            (seq 0 (List.length keys)) [].

(** numpy with this sort for [np.argsort], to run the accessors on.  It
    does not compute [np.cos] and [np.sin]: both give nan, and no example
    that uses it reads a coordinate. *)
Definition insertion_numpy : numpy :=
  {| argsort := insertion_argsort;
     cos := fun _ => PrimFloat.nan;
     sin := fun _ => PrimFloat.nan |}.

End Np.

(* ===================================================================== *)
(** * lds.py: class Scan *)
(* ===================================================================== *)

Module Lds.

Open Scope float_scope.

(** The attributes of a [Scan] object. *)
Record Scan : Type := mkScan {
  _distances : list float;
  _angles : list float;
  _intensities : list Z;
  _error_codes : list Z;
  _unsorted : bool;
  _distance_max : float
}.

(** [Scan.__init__]. *)
Definition Scan_init : Scan :=
  {| _distances := []; _angles := []; _intensities := []; _error_codes := [];
     _unsorted := true; _distance_max := 5 |}.

(** A method body: it reads and assigns the attributes of [self] and
    returns or raises. *)
Definition M (A : Type) : Type := Scan -> res A * Scan.

Definition ret {A : Type} (a : A) : M A := fun self => (Ok a, self).

Definition raise {A : Type} (e : exn) : M A := fun self => (Raise e, self).

Definition bind {A B : Type} (c : M A) (k : A -> M B) : M B :=
  fun self =>
    match c self with
    | (Ok a, self') => k a self'
    | (Raise e, self') => (Raise e, self')
    end.

Definition get : M Scan := fun self => (Ok self, self).

Definition assign (f : Scan -> Scan) : M unit := fun self => (Ok tt, f self).

Declare Scope method_scope.
Delimit Scope method_scope with method.
Notation "x <- c ;; k" := (bind c (fun x => k))
  (at level 61, c at next level, right associativity) : method_scope.
Notation "c ;; k" := (bind c (fun _ => k))
  (at level 61, right associativity) : method_scope.
Open Scope method_scope.

(** The assignments [self._x = v]. *)
Definition set_distances (v : list float) (self : Scan) : Scan :=
  mkScan v (_angles self) (_intensities self) (_error_codes self)
         (_unsorted self) (_distance_max self).
Definition set_angles (v : list float) (self : Scan) : Scan :=
  mkScan (_distances self) v (_intensities self) (_error_codes self)
         (_unsorted self) (_distance_max self).
Definition set_intensities (v : list Z) (self : Scan) : Scan :=
  mkScan (_distances self) (_angles self) v (_error_codes self)
         (_unsorted self) (_distance_max self).
Definition set_error_codes (v : list Z) (self : Scan) : Scan :=
  mkScan (_distances self) (_angles self) (_intensities self) v
         (_unsorted self) (_distance_max self).
Definition set_unsorted (v : bool) (self : Scan) : Scan :=
  mkScan (_distances self) (_angles self) (_intensities self)
         (_error_codes self) v (_distance_max self).

(** [Scan.add_measurement].  The defaults of the optional arguments are
    [intensity=0], [error_code=0], [linear_unit='millimeters'] and
    [angular_unit='degrees']; a caller that omits them passes these.
    The integer [0] that replaces a distance beyond the maximum is stored
    in the float array as [0.0].  The two arrays of integers are lists of
    [Z], which is what [np.append] builds as long as the integers fit in
    64 bits (see the conventions above). *)
Definition add_measurement (distance angle : float) (intensity error_code : Z)
    (linear_unit angular_unit : string) : M unit :=
  assign (set_unsorted true) ;;
  let acceptable_lu := ["meters"; "millimeters"]%string in
  let acceptable_au := ["degrees"; "radians"]%string in
  if negb (str_in linear_unit acceptable_lu) then
    raise (ValueError (not_an_available_linear_unit linear_unit))
  else if negb (str_in angular_unit acceptable_au) then
    raise (ValueError (not_an_available_angular_unit angular_unit))
  else
    let distance :=
      if String.eqb linear_unit "millimeters" then distance / 1000
      else distance in
    self <- get ;;
    let distance := if _distance_max self <? distance then 0 else distance in
    let angle :=
      if String.eqb angular_unit "degrees" then angle * Np.pi / 180
      else angle in
    self <- get ;;
    assign (set_distances (Np.append (_distances self) distance)) ;;
    self <- get ;;
    assign (set_angles (Np.append (_angles self) angle)) ;;
    self <- get ;;
    assign (set_intensities (Np.append (_intensities self) intensity)) ;;
    self <- get ;;
    assign (set_error_codes (Np.append (_error_codes self) error_code)).

(** A numpy call that may raise, inside a method. *)
Definition lift {A : Type} (r : res A) : M A := fun self => (r, self).

Section Accessors.

Variable np : Np.numpy.

(** [Scan._sort_measurements]. *)
Definition _sort_measurements : M unit :=
  self <- get ;;
  if _unsorted self then
    let sorted_ndxs := Np.argsort np (_angles self) in
    self <- get ;;
    v <- lift (Np.take (_distances self) sorted_ndxs) ;;
    assign (set_distances v) ;;
    self <- get ;;
    v <- lift (Np.take (_angles self) sorted_ndxs) ;;
    assign (set_angles v) ;;
    self <- get ;;
    v <- lift (Np.take (_intensities self) sorted_ndxs) ;;
    assign (set_intensities v) ;;
    self <- get ;;
    v <- lift (Np.take (_error_codes self) sorted_ndxs) ;;
    assign (set_error_codes v) ;;
    assign (set_unsorted false)
  else ret tt.

(** [Scan.distances], [Scan.angles], [Scan.intensities],
    [Scan.error_codes]. *)
Definition distances : M (list float) :=
  _sort_measurements ;;
  self <- get ;;
  ret (_distances self).

Definition angles : M (list float) :=
  _sort_measurements ;;
  self <- get ;;
  ret (_angles self).

Definition intensities : M (list Z) :=
  _sort_measurements ;;
  self <- get ;;
  ret (_intensities self).

Definition error_codes : M (list Z) :=
  _sort_measurements ;;
  self <- get ;;
  ret (_error_codes self).

(** [Scan.x] and [Scan.y]. *)
Definition x : M (list float) :=
  _sort_measurements ;;
  self <- get ;;
  lift (Np.multiply (_distances self) (map (Np.cos np) (_angles self))).

Definition y : M (list float) :=
  _sort_measurements ;;
  self <- get ;;
  lift (Np.multiply (_distances self) (map (Np.sin np) (_angles self))).

(** [Scan.points]. *)
Definition points : M (list (list float)) :=
  xs <- x ;;
  ys <- y ;;
  lift (Np.vstack xs ys).

End Accessors.

End Lds.

(* ===================================================================== *)
(** * scan_parser.py: class ScanParser *)
(* ===================================================================== *)

Module ScanParser.

Import Lds.
Open Scope float_scope.

(** The parsing tokens of [file_to_strings]. *)
Definition start_token : string := "AngleInDegrees".
Definition end_token : string := "ROTATION_SPEED".

(** The local variables of [file_to_strings]. *)
Record locals : Type := mkLocals {
  scans : list string;
  scan_string : string;
  append_to_str : bool
}.

(** The body of the loop [for line in scan_file]. *)
Definition file_to_strings_body (l : locals) (line : string) : locals :=
  if contains start_token line then
    mkLocals (scans l) EmptyString true
  else if contains end_token line && append_to_str l then
    mkLocals (scans l ++ [scan_string l]) (scan_string l) false
  else if append_to_str l then
    mkLocals (scans l) (scan_string l ++ line) true
  else l.

(** [ScanParser.file_to_strings].  The file is given as the lines that
    iterating over it yields, each with its line terminator. *)
Definition file_to_strings (scan_file : list string) : list string :=
  scans (fold_left file_to_strings_body scan_file
                   (mkLocals [] EmptyString false)).

(** The lines of a file, as [file_to_strings] tells them apart: a line
    that starts a scan, a line that closes one, and a line of data. *)
Definition starts (line : string) : bool := contains start_token line.

Definition closes (line : string) : bool :=
  negb (contains start_token line) && contains end_token line.

Definition is_data (line : string) : bool :=
  negb (contains start_token line) && negb (contains end_token line).

(** The lines from the first line that starts a scan. *)
Fixpoint from_start (lines : list string) : list string :=
  match lines with
  | [] => []
  | line :: lines' => if starts line then lines else from_start lines'
  end.

(** Lines that complete no scan: after the first line that starts a scan,
    if there is one, no line closes a scan. *)
Definition quiet (lines : list string) : bool :=
  forallb (fun line => negb (closes line)) (from_start lines).

(** A completed scan in a file: lines that complete no scan, a line that
    starts one, lines of data, and a line that closes the scan. *)
Record block : Type := mkBlock {
  junk : list string;
  start_line : string;
  data : list string;
  end_line : string
}.

Definition block_lines (b : block) : list string :=
  junk b ++ start_line b :: data b ++ [end_line b].

Definition well_formed (b : block) : bool :=
  quiet (junk b) && starts (start_line b) &&
  forallb is_data (data b) && closes (end_line b).

(** The lines of data of a scan, one after the other. *)
Definition joined (lines : list string) : string :=
  fold_right String.append EmptyString lines.

Section FromString.

Variable py : builtins.

(** [float(s)] and [int(s)] as calls that may raise. *)
Definition float_ (s : string) : M float :=
  match py_float py s with
  | Some v => ret v
  | None => raise (ValueError (could_not_convert s))
  end.

Definition int_ (s : string) : M Z :=
  match py_int py s with
  | Some v => ret v
  | None => raise (ValueError (could_not_convert s))
  end.

(** The body of the loop [for line in scan_lines] of [from_string], run on
    the local [scan]: it returns the [prev_angle] of the next iteration.
    [prev_angle] is [None] while it holds the string
    ['No previous angle.']. *)
Definition from_string_body (line : string) (prev_angle : option float)
  : M (option float) :=
  let meas := split_at "," line in
  if negb (List.length meas =? 4)%nat then
    raise (ValueError (could_not_be_parsed line))
  else
    angle <- float_ (nth 0 meas EmptyString) ;;
    distance <- float_ (nth 1 meas EmptyString) ;;
    intense <- int_ (nth 2 meas EmptyString) ;;
    err <- int_ (nth 3 meas EmptyString) ;;
    if distance <? 0 then
      raise (ValueError (is_an_invalid_distance distance))
    else if (angle <? 0) || (359 <? angle) then
      raise (ValueError (is_an_invalid_angle angle))
    else if (intense <? 0)%Z then
      raise (ValueError (is_an_invalid_intensity intense))
    else if (err <? 0)%Z then
      raise (ValueError (is_an_invalid_error_code err))
    else
      prev_angle' <-
        match prev_angle with
        | None => ret (Some angle)
        | Some prev =>
            if angle <=? prev then
              raise (ValueError (was_not_an_increase angle prev))
            else ret prev_angle
        end ;;
      add_measurement distance angle intense err "millimeters" "degrees" ;;
      ret prev_angle'.

(** The loop [for line in scan_lines]. *)
Fixpoint from_string_loop (scan_lines : list string)
    (prev_angle : option float) : M unit :=
  match scan_lines with
  | [] => ret tt
  | line :: scan_lines' =>
      prev_angle' <- from_string_body line prev_angle ;;
      from_string_loop scan_lines' prev_angle'
  end.

(** [ScanParser.from_string]: the scan, or the exception that left the
    loop. *)
Definition from_string (scan_string : string) : res Scan :=
  let scan_lines := split scan_string in
  match from_string_loop scan_lines None Scan_init with
  | (Ok _, scan) => Ok scan
  | (Raise e, _) => Raise e
  end.

(** The body of the loop of [from_file]: [try ... except Exception: pass]. *)
Definition from_file_body (scans : list Scan) (scan_string : string)
  : list Scan :=
  match from_string scan_string with
  | Ok scan => scans ++ [scan]
  | Raise _ => scans
  end.

(** [ScanParser.from_file]. *)
Definition from_file (scan_file : list string) : list Scan :=
  let scan_strings := file_to_strings scan_file in
  fold_left from_file_body scan_strings [].

End FromString.

End ScanParser.

(* ===================================================================== *)
(** * Callers of Scan *)
(* ===================================================================== *)

Module Client.

Import Lds.

(** The read accessors of [Scan], and what each returns. *)
Inductive accessor : Type :=
| Distances | Angles | Intensities | ErrorCodes | X | Y | Points.

Inductive view : Type :=
| Floats (v : list float)
| Ints (v : list Z)
| Rows (v : list (list float)).

(** A call of a method of [Scan]. *)
Inductive call : Type :=
| AddMeasurement (distance angle : float) (intensity error_code : Z)
                 (linear_unit angular_unit : string)
| Read (a : accessor).

(** One measurement: the elements at one index of the four arrays. *)
Abbreviation measurement := (float * float * Z * Z)%type (only parsing).

Definition measurements (self : Scan) : list measurement :=
  combine (combine (combine (_distances self) (_angles self))
                   (_intensities self))
          (_error_codes self).

(** The four arrays have the same length. *)
Definition aligned (self : Scan) : Prop :=
  List.length (_distances self) = List.length (_angles self) /\
  List.length (_intensities self) = List.length (_angles self) /\
  List.length (_error_codes self) = List.length (_angles self).

(** What an accessor shows of a scan whose arrays need no sort. *)
Definition shown (np : Np.numpy) (a : accessor) (self : Scan) : view :=
  let xs := Np.zip_mul (_distances self) (map (Np.cos np) (_angles self)) in
  let ys := Np.zip_mul (_distances self) (map (Np.sin np) (_angles self)) in
  match a with
  | Distances => Floats (_distances self)
  | Angles => Floats (_angles self)
  | Intensities => Ints (_intensities self)
  | ErrorCodes => Ints (_error_codes self)
  | X => Floats xs
  | Y => Floats ys
  | Points => Rows [xs; ys]
  end.

Section Calls.

Variable np : Np.numpy.

(** The call of an accessor. *)
Definition read (a : accessor) : M view :=
  match a with
  | Distances => v <- distances np ;; ret (Floats v)
  | Angles => v <- angles np ;; ret (Floats v)
  | Intensities => v <- intensities np ;; ret (Ints v)
  | ErrorCodes => v <- error_codes np ;; ret (Ints v)
  | X => v <- x np ;; ret (Floats v)
  | Y => v <- y np ;; ret (Floats v)
  | Points => v <- points np ;; ret (Rows v)
  end.

(** The state a call leaves, whether it returns or raises. *)
Definition exec (self : Scan) (c : call) : Scan :=
  match c with
  | AddMeasurement d a i e lu au => snd (add_measurement d a i e lu au self)
  | Read a => snd (read a self)
  end.

(** A sequence of calls on a new [Scan]. *)
Definition run (calls : list call) : Scan := fold_left exec calls Scan_init.

End Calls.

(** The measurement a call adds to a scan: what [add_measurement] stores
    in a new [Scan]; none for a call that raises and for an accessor. *)
Definition added (c : call) : list measurement :=
  match c with
  | AddMeasurement d a i e lu au =>
      measurements (snd (add_measurement d a i e lu au Scan_init))
  | Read _ => []
  end.

(** A line of a file: its text and the line feed that ends it. *)
Definition ln (text : string) : string :=
  (text ++ String (ascii_of_nat 10) EmptyString)%string.

End Client.

(* ===================================================================== *)
(** * What from_string reads in a line *)
(* ===================================================================== *)

Module Readings.

Import Lds ScanParser.
Open Scope float_scope.

(** The four numbers of a line, as [from_string] names them. *)
Record reading : Type := mkReading {
  angle : float;
  distance : float;
  intense : Z;
  err : Z
}.

(** [line] reads as [m]: it has four fields at the commas, the four
    convert to the numbers of [m], and none of the range checks of
    [from_string] raises on them. *)
Definition reads (py : builtins) (line : string) (m : reading) : Prop :=
  exists f0 f1 f2 f3 : string,
    split_at "," line = [f0; f1; f2; f3] /\
    py_float py f0 = Some (angle m) /\
    py_float py f1 = Some (distance m) /\
    py_int py f2 = Some (intense m) /\
    py_int py f3 = Some (err m) /\
    (distance m <? 0) = false /\
    (angle m <? 0) = false /\ (359 <? angle m) = false /\
    (0 <= intense m)%Z /\ (0 <= err m)%Z.

(** The order check of [from_string] raises on none of the angles
    [angles], read in this order with [prev_angle] at the start: each is
    above [prev_angle], or above the first of them while [prev_angle]
    holds no angle. *)
Definition in_order (prev_angle : option float) (angles : list float) : Prop :=
  match prev_angle, angles with
  | Some prev, _ => Forall (fun a => (a <=? prev) = false) angles
  | None, [] => True
  | None, first :: angles' => Forall (fun a => (a <=? first) = false) angles'
  end.

(** [prev_angle] once lines with the angles [angles] have passed. *)
Definition prev_after (prev_angle : option float) (angles : list float)
  : option float :=
  match prev_angle with
  | Some prev => Some prev
  | None => hd_error angles
  end.

(** The scan after [add_measurement] has stored the readings [ms], in
    millimeters and degrees. *)
Definition stored_distance (max d : float) : float :=
  if max <? d / 1000 then 0 else d / 1000.

Definition extended (self : Scan) (ms : list reading) : Scan :=
  mkScan (_distances self ++
            map (fun m => stored_distance (_distance_max self) (distance m)) ms)
         (_angles self ++ map (fun m => angle m * Np.pi / 180) ms)
         (_intensities self ++ map intense ms)
         (_error_codes self ++ map err ms)
         true (_distance_max self).

(** The exception that the iteration of [from_string] on [line] raises,
    with [prev_angle] left by the lines before it: that of the first of its
    checks that fails, in the order of the code (the number of fields, the
    four conversions from the left, the distance, the angle, the intensity,
    the error code, the order of the angles); [None] when all pass. *)
Definition rejection (py : builtins) (prev_angle : option float)
    (line : string) : option exn :=
  match split_at "," line with
  | [f0; f1; f2; f3] =>
      match py_float py f0 with
      | None => Some (ValueError (could_not_convert f0))
      | Some angle =>
      match py_float py f1 with
      | None => Some (ValueError (could_not_convert f1))
      | Some distance =>
      match py_int py f2 with
      | None => Some (ValueError (could_not_convert f2))
      | Some intense =>
      match py_int py f3 with
      | None => Some (ValueError (could_not_convert f3))
      | Some err =>
          if distance <? 0 then
            Some (ValueError (is_an_invalid_distance distance))
          else if (angle <? 0) || (359 <? angle) then
            Some (ValueError (is_an_invalid_angle angle))
          else if (intense <? 0)%Z then
            Some (ValueError (is_an_invalid_intensity intense))
          else if (err <? 0)%Z then
            Some (ValueError (is_an_invalid_error_code err))
          else
            match prev_angle with
            | None => None
            | Some prev =>
                if angle <=? prev then
                  Some (ValueError (was_not_an_increase angle prev))
                else None
            end
      end end end end
  | _ => Some (ValueError (could_not_be_parsed line))
  end.

(** The integers of a numpy array of 64-bit integers.  [np.append] on the
    arrays of intensities and of error codes gives such an array, with the
    integers appended as they are, as long as each of them is one of these.
    An integer from [2 ^ 63] on makes [np.append] change the type of the
    array to floats or to objects, and an array of floats rounds what it
    holds: the lists of integers of a [Scan] stand for the arrays of the
    code only while every integer appended fits. *)
Definition fits_int64 (v : Z) : Prop := (- 2 ^ 63 <= v < 2 ^ 63)%Z.

(** [scan] is a new scan in which the readings [ms] have been stored, in
    this order: the distance of each divided by 1000, or 0 when that is
    above 5.0; its angle times pi/180; one intensity and one error code
    for each, which are those of the readings when they all fit in 64
    bits; and the scan is dirty. *)
Definition holds (scan : Scan) (ms : list reading) : Prop :=
  _distances scan = map (fun m => stored_distance 5 (distance m)) ms /\
  _angles scan = map (fun m => angle m * Np.pi / 180) ms /\
  List.length (_intensities scan) = List.length ms /\
  List.length (_error_codes scan) = List.length ms /\
  (Forall (fun m => fits_int64 (intense m) /\ fits_int64 (err m)) ms ->
   _intensities scan = map intense ms /\ _error_codes scan = map err ms) /\
  _unsorted scan = true /\
  _distance_max scan = 5.

End Readings.

(* ===================================================================== *)
(** * lds_tools.py: parse_scan_file *)
(* ===================================================================== *)

Module LdsTools.

(** The local variables of [parse_scan_file]. *)
Record locals : Type := mkLocals {
  scans : list string;
  scan_string : string
}.

(** The body of the loop [for line in scan_file]. *)
Definition parse_scan_file_body (l : locals) (line : string) : locals :=
  if contains "AngleInDegrees" line then
    mkLocals (scans l) (scan_string l ++ line)
  else l.

(** [parse_scan_file], on the lines that iterating over the file
    yields. *)
Definition parse_scan_file (scan_file : list string) : list string :=
  scans (fold_left parse_scan_file_body scan_file (mkLocals [] EmptyString)).

End LdsTools.

(* ===================================================================== *)
(** * plot_scans.py: class ScanPlotter and main *)
(* ===================================================================== *)

Module Plot.

Import Lds ScanParser.
Open Scope float_scope.

(** What ends a call of the plotter early: an exception of a method of
    [Scan], the [ValueError] of [np.concatenate] on an empty list, or the
    [ValueError] of [max()] and [min()] on an empty sequence. *)
Inductive failure : Type :=
| Raised (e : exn)
| NeedAtLeastOneArray
| EmptySequence.

Inductive outcome (A : Type) : Type :=
| Done (a : A)
| Failed (f : failure).

Arguments Done {A} a.
Arguments Failed {A} f.

(** What the plotter writes and draws, in the order of the calls.  The
    figure and the axes of matplotlib are not modelled: each call on them
    is recorded with its arguments. *)
Inductive effect : Type :=
| Printed_extracted (n : nat)
| Printed_help_next
| Printed_help_previous
| Printed_index (sdx : Z)
| Figure_created
| Set_xlim (low high : float)
| Set_ylim (low high : float)
| Axes_cleared
| Scatter (x y : list float) (c : list Z)
| Limits_restored
| Figure_shown
| Plot_shown.

(** The attributes of a [ScanPlotter], without the figure and the axes.
    The scans of [_scans] are distinct objects, as those that [from_file]
    returns are: a method of one changes that one. *)
Record ScanPlotter : Type := mkScanPlotter {
  _scans : list Scan;
  _xall : list float;
  _yall : list float;
  _xmax : float;
  _xmin : float;
  _ymax : float;
  _ymin : float;
  _sdx : Z
}.

(** [ScanPlotter.axis_margin], the binary64 number closest to 0.1. *)
Definition axis_margin : float := 0x1.999999999999ap-4.

(** The builtins [max()] and [min()] on a sequence of floats: the first
    item, replaced by each later item that compares greater (less). *)
Definition py_max (items : list float) : outcome float :=
  match items with
  | [] => Failed EmptySequence
  | first :: items' =>
      Done (fold_left (fun maxitem item =>
                         if maxitem <? item then item else maxitem)
                      items' first)
  end.

Definition py_min (items : list float) : outcome float :=
  match items with
  | [] => Failed EmptySequence
  | first :: items' =>
      Done (fold_left (fun minitem item =>
                         if item <? minitem then item else minitem)
                      items' first)
  end.

(** [np.concatenate(arrays, axis=0)] on a list of one-dimensional
    arrays. *)
Definition concatenate (arrays : list (list float)) : outcome (list float) :=
  match arrays with
  | [] => Failed NeedAtLeastOneArray
  | _ :: _ => Done (List.concat arrays)
  end.

(** [[scan.method() for scan in scans]]: the results, and the scans as the
    calls leave them; the first exception ends the loop. *)
Fixpoint each {A : Type} (method : M A) (scans : list Scan)
  : res (list A) * list Scan :=
  match scans with
  | [] => (Ok [], [])
  | scan :: scans' =>
      match method scan with
      | (Raise e, scan1) => (Raise e, scan1 :: scans')
      | (Ok v, scan1) =>
          match each method scans' with
          | (Ok vs, scans1) => (Ok (v :: vs), scan1 :: scans1)
          | (Raise e, scans1) => (Raise e, scan1 :: scans1)
          end
      end
  end.

(** [l[i] = v] for an index inside the list. *)
Fixpoint set_item {A : Type} (l : list A) (i : nat) (v : A) : list A :=
  match l, i with
  | [], _ => []
  | _ :: l', O => v :: l'
  | w :: l', S i' => w :: set_item l' i' v
  end.

(** [l[i]] for a Python list: a negative index counts from the end, and
    an index outside the list raises [IndexError] ([None]). *)
Definition get_item {A : Type} (l : list A) (i : Z) : option (nat * A) :=
  let len := Z.of_nat (List.length l) in
  let k := if (i <? 0)%Z then (len + i)%Z else i in
  if (k <? 0)%Z then None
  else match nth_error l (Z.to_nat k) with
       | Some v => Some (Z.to_nat k, v)
       | None => None
       end.

(** A scan as the methods of [Scan] leave it: the four arrays have one
    length and, when the scan is not dirty, the angles are in order. *)
Definition kept (scan : Scan) : Prop :=
  Client.aligned scan /\
  (_unsorted scan = false ->
   StronglySorted (fun a b => Np.le a b = true) (_angles scan)).

(** The coordinates of the points of a scan, from its arrays as they
    stand. *)
Definition xs_of (np : Np.numpy) (scan : Scan) : list float :=
  Np.zip_mul (_distances scan) (map (Np.cos np) (_angles scan)).

Definition ys_of (np : Np.numpy) (scan : Scan) : list float :=
  Np.zip_mul (_distances scan) (map (Np.sin np) (_angles scan)).

(** numpy to run the plotter on scans whose angles are 0: the insertion
    sort for [np.argsort], and for [np.cos] and [np.sin] their values at
    the angle 0, which are 1 and 0; at other angles they are not computed
    and give nan. *)
Definition numpy_at_zero : Np.numpy :=
  {| Np.argsort := Np.insertion_argsort;
     Np.cos := fun a => if a =? 0 then 1 else nan;
     Np.sin := fun a => if a =? 0 then 0 else nan |}.

(** The index that a key asks for, before it is limited. *)
Definition moved (key : string) (sdx : Z) : Z :=
  if String.eqb key "d" then (sdx + 1)%Z
  else if String.eqb key "a" then (sdx - 1)%Z
  else sdx.

Section Plotter.

Variable np : Np.numpy.

(** [ScanPlotter.__init__]: the plotter and the calls on matplotlib, or
    the failure that leaves no plotter. *)
Definition ScanPlotter_init (scans : list Scan)
  : outcome ScanPlotter * list effect :=
  match each (x np) scans with
  | (Raise e, _) => (Failed (Raised e), [])
  | (Ok xs, scans1) =>
  match concatenate xs with
  | Failed f => (Failed f, [])
  | Done xall =>
  match each (y np) scans1 with
  | (Raise e, _) => (Failed (Raised e), [])
  | (Ok ys, scans2) =>
  match concatenate ys with
  | Failed f => (Failed f, [])
  | Done yall =>
  match py_max xall, py_min xall, py_max yall, py_min yall with
  | Done xmax, Done xmin, Done ymax, Done ymin =>
      (Done (mkScanPlotter scans2 xall yall xmax xmin ymax ymin 0),
       [Figure_created;
        Set_xlim (xmin - axis_margin) (xmax + axis_margin);
        Set_ylim (ymin - axis_margin) (ymax + axis_margin)])
  | Failed f, _, _, _ => (Failed f, [])
  | _, Failed f, _, _ => (Failed f, [])
  | _, _, Failed f, _ => (Failed f, [])
  | _, _, _, Failed f => (Failed f, [])
  end end end end end.

(** The assignments to [self._sdx] and to the scan [self._scans[i]]. *)
Definition set_sdx (v : Z) (self : ScanPlotter) : ScanPlotter :=
  mkScanPlotter (_scans self) (_xall self) (_yall self) (_xmax self)
                (_xmin self) (_ymax self) (_ymin self) v.

Definition set_scan (i : nat) (scan : Scan) (self : ScanPlotter)
  : ScanPlotter :=
  mkScanPlotter (set_item (_scans self) i scan) (_xall self) (_yall self)
                (_xmax self) (_xmin self) (_ymax self) (_ymin self)
                (_sdx self).

(** [ax.scatter(scan.x(), scan.y(), c=scan.intensities(), ...)] on the
    scan at the index [i] of [self._scans], after the effects [before]. *)
Definition scatter (i : nat) (scan : Scan) (before after : list effect)
    (self : ScanPlotter) : outcome unit * ScanPlotter * list effect :=
  match x np scan with
  | (Raise e, scan1) => (Failed (Raised e), set_scan i scan1 self, before)
  | (Ok xs, scan1) =>
  match y np scan1 with
  | (Raise e, scan2) => (Failed (Raised e), set_scan i scan2 self, before)
  | (Ok ys, scan2) =>
  match intensities np scan2 with
  | (Raise e, scan3) => (Failed (Raised e), set_scan i scan3 self, before)
  | (Ok cs, scan3) =>
      (Done tt, set_scan i scan3 self,
       before ++ Scatter xs ys cs :: after)
  end end end.

(** [ScanPlotter._replot]. *)
Definition _replot (self : ScanPlotter)
  : outcome unit * ScanPlotter * list effect :=
  if ((0 <=? _sdx self)%Z &&
      (_sdx self <? Z.of_nat (List.length (_scans self)))%Z)%bool then
    match get_item (_scans self) (_sdx self) with
    | None => (Failed (Raised IndexError), self, [])
    | Some (i, scan) =>
        scatter i scan [Axes_cleared] [Limits_restored; Figure_shown] self
    end
  else (Done tt, self, []).

(** [ScanPlotter._keyboard_control], on the key of the event. *)
Definition _keyboard_control (key : string) (self : ScanPlotter)
  : outcome unit * ScanPlotter * list effect :=
  let self :=
    if String.eqb key "d" then set_sdx (_sdx self + 1) self
    else if String.eqb key "a" then set_sdx (_sdx self - 1) self
    else self in
  let self :=
    if (_sdx self <? 0)%Z then set_sdx 0 self
    else if (Z.of_nat (List.length (_scans self)) <=? _sdx self)%Z then
      set_sdx (Z.of_nat (List.length (_scans self)) - 1) self
    else self in
  match _replot self with
  | (r, self', drawn) => (r, self', Printed_index (_sdx self) :: drawn)
  end.

(** [ScanPlotter.show_scans]. *)
Definition show_scans (self : ScanPlotter)
  : outcome unit * ScanPlotter * list effect :=
  match get_item (_scans self) (_sdx self) with
  | None => (Failed (Raised IndexError), self, [Printed_index (_sdx self)])
  | Some (i, scan) =>
      scatter i scan [Printed_index (_sdx self)] [Plot_shown] self
  end.

(** The key events of a session, one after the other, up to the first
    that fails. *)
Fixpoint key_presses (keys : list string) (self : ScanPlotter)
  : outcome unit * ScanPlotter * list effect :=
  match keys with
  | [] => (Done tt, self, [])
  | key :: keys' =>
      match _keyboard_control key self with
      | (Done _, self', drawn) =>
          match key_presses keys' self' with
          | (r, self'', drawn') => (r, self'', drawn ++ drawn')
          end
      | (Failed f, self', drawn) => (Failed f, self', drawn)
      end
  end.

Variable py : builtins.

(** [main], for a log file that is named and holds the lines
    [scan_file]. *)
Definition main (scan_file : list string) : outcome unit * list effect :=
  let scans := from_file py scan_file in
  let printed := [Printed_extracted (List.length scans)] in
  match ScanPlotter_init scans with
  | (Failed f, created) => (Failed f, printed ++ created)
  | (Done plotter, created) =>
      match show_scans plotter with
      | (r, _, drawn) =>
          (r, printed ++ created ++
              [Printed_help_next; Printed_help_previous] ++ drawn)
      end
  end.

End Plotter.

End Plot.

(* ===================================================================== *)
(** * Properties of Scan.add_measurement *)
(* ===================================================================== *)

Module AddMeasurement.

Import Lds Client.
Open Scope float_scope.

(** A unit outside the acceptable ones: the flag is set, then the call
    raises. *)
Lemma bad_linear_unit (d a : float) (i e : Z) (lu au : string) (s : Scan) :
  str_in lu ["meters"; "millimeters"]%string = false ->
  add_measurement d a i e lu au s =
  (Raise (ValueError (not_an_available_linear_unit lu)), set_unsorted true s).
Proof.
  intros Hlu. unfold add_measurement, bind, assign, raise.
  rewrite Hlu. reflexivity.
Qed.

Lemma bad_angular_unit (d a : float) (i e : Z) (lu au : string) (s : Scan) :
  str_in lu ["meters"; "millimeters"]%string = true ->
  str_in au ["degrees"; "radians"]%string = false ->
  add_measurement d a i e lu au s =
  (Raise (ValueError (not_an_available_angular_unit au)), set_unsorted true s).
Proof.
  intros Hlu Hau. unfold add_measurement, bind, assign, raise.
  rewrite Hlu, Hau. reflexivity.
Qed.

(** Acceptable units: one element is appended to each array. *)
Lemma good_units (d a : float) (i e : Z) (lu au : string) (s : Scan) :
  str_in lu ["meters"; "millimeters"]%string = true ->
  str_in au ["degrees"; "radians"]%string = true ->
  add_measurement d a i e lu au s =
  (Ok tt,
   let d1 := if String.eqb lu "millimeters" then d / 1000 else d in
   mkScan (_distances s ++ [if _distance_max s <? d1 then 0 else d1])
          (_angles s ++
             [if String.eqb au "degrees" then a * Np.pi / 180 else a])
          (_intensities s ++ [i]) (_error_codes s ++ [e])
          true (_distance_max s)).
Proof.
  intros Hlu Hau. unfold add_measurement, bind, assign, raise, get.
  rewrite Hlu, Hau. reflexivity.
Qed.

Lemma units_cases (lu au : string) :
  str_in lu ["meters"; "millimeters"]%string = false \/
  (str_in lu ["meters"; "millimeters"]%string = true /\
   str_in au ["degrees"; "radians"]%string = false) \/
  (str_in lu ["meters"; "millimeters"]%string = true /\
   str_in au ["degrees"; "radians"]%string = true).
Proof.
  destruct (str_in lu _); destruct (str_in au _); auto.
Qed.

(** C1, as amended: on every [Scan] whose maximum is the 5.0 m that
    [__init__] sets, [add_measurement(5000, 90, linear_unit='millimeters',
    angular_unit='degrees')] returns and stores the distance 5.0 (5000 mm
    is 5.0 m, which is not greater than the maximum, so it is kept) and
    the angle pi/2. *)
Theorem add_measurement_5000_90 (i e : Z) (s : Scan) :
  _distance_max s = 5 ->
  add_measurement 5000 90 i e "millimeters" "degrees" s =
  (Ok tt,
   mkScan (_distances s ++ [5]) (_angles s ++ [Np.pi / 2])
          (_intensities s ++ [i]) (_error_codes s ++ [e]) true 5).
Proof.
  intros Hmax. rewrite good_units by reflexivity. rewrite Hmax.
  reflexivity.
Qed.

Lemma add_measurement_5000_90_witness :
  add_measurement 5000 90 0 0 "millimeters" "degrees" Scan_init =
  (Ok tt, mkScan [5] [Np.pi / 2] [0%Z] [0%Z] true 5).
Proof.
  exact (@add_measurement_5000_90 0 0 Scan_init eq_refl).
Defined.

(** C1, as the specification states it, fails: the distance stored by
    [add_measurement(5000, 90, linear_unit='millimeters',
    angular_unit='degrees')] on a new [Scan] is 5.0 and not 0. *)
Lemma add_measurement_5000_90_not_zeroed :
  let s := snd (add_measurement 5000 90 0 0 "millimeters" "degrees" Scan_init) in
  _distances s = [5] /\ _distances s <> [0].
Proof.
  split; [reflexivity|].
  intros H. apply (f_equal (fun l => PrimFloat.eqb (hd nan l) 0)) in H.
  vm_compute in H. discriminate H.
Qed.

(** C6: with [linear_unit='millimeters'] the distance stored is the
    distance divided by 1000, when that is not beyond the maximum; with
    [angular_unit='degrees'] the angle stored is [angle*pi/180]; and
    [add_measurement(1000, 90)] with the default arguments stores the
    distance 1.0 and the angle pi/2. *)
Theorem add_measurement_normalizes (d a : float) (i e : Z) (s : Scan) :
  _distance_max s = 5 ->
  (forall au, str_in au ["degrees"; "radians"]%string = true ->
     (5 <? d / 1000) = false ->
     _distances (snd (add_measurement d a i e "millimeters" au s)) =
     _distances s ++ [d / 1000]) /\
  (forall lu, str_in lu ["meters"; "millimeters"]%string = true ->
     _angles (snd (add_measurement d a i e lu "degrees" s)) =
     _angles s ++ [a * Np.pi / 180]) /\
  add_measurement 1000 90 0 0 "millimeters" "degrees" s =
  (Ok tt,
   mkScan (_distances s ++ [1]) (_angles s ++ [Np.pi / 2])
          (_intensities s ++ [0%Z]) (_error_codes s ++ [0%Z]) true 5).
Proof.
  intros Hmax. repeat split.
  - intros au Hau Hle. rewrite good_units by (reflexivity || assumption).
    cbn. rewrite Hmax, Hle. reflexivity.
  - intros lu Hlu. rewrite good_units by (reflexivity || assumption).
    reflexivity.
  - rewrite good_units by reflexivity. rewrite Hmax. reflexivity.
Qed.

Lemma add_measurement_normalizes_witness :
  _distances (snd (add_measurement 2500 45 7 0 "millimeters" "radians"
                                   Scan_init)) = [2.5] /\
  _angles (snd (add_measurement 2500 45 7 0 "meters" "degrees" Scan_init)) =
  [Np.pi / 4] /\
  add_measurement 1000 90 0 0 "millimeters" "degrees" Scan_init =
  (Ok tt, mkScan [1] [Np.pi / 2] [0%Z] [0%Z] true 5).
Proof.
  destruct (@add_measurement_normalizes 2500 45 7 0 Scan_init eq_refl)
    as (Hd & Ha & Hex).
  split; [|split].
  - exact (Hd "radians"%string eq_refl eq_refl).
  - exact (Ha "meters"%string eq_refl).
  - exact Hex.
Defined.

(** C3, as amended: with a linear unit outside meters and millimeters, or
    an angular unit outside degrees and radians, [add_measurement] raises
    the [ValueError] of an invalid unit; nothing is appended, the four
    arrays and the maximum are as before, and the dirty flag is set, which
    is the one assignment made before the units are looked at. *)
Theorem add_measurement_invalid_unit (d a : float) (i e : Z)
    (lu au : string) (s : Scan) :
  str_in lu ["meters"; "millimeters"]%string = false \/
  str_in au ["degrees"; "radians"]%string = false ->
  exists ex,
    add_measurement d a i e lu au s = (Raise ex, set_unsorted true s) /\
    kind ex = InvalidUnit /\
    _distances (set_unsorted true s) = _distances s /\
    _angles (set_unsorted true s) = _angles s /\
    _intensities (set_unsorted true s) = _intensities s /\
    _error_codes (set_unsorted true s) = _error_codes s /\
    _distance_max (set_unsorted true s) = _distance_max s /\
    _unsorted (set_unsorted true s) = true.
Proof.
  intros H.
  destruct (units_cases lu au) as [Hlu | [[Hlu Hau] | [Hlu Hau]]].
  - exists (ValueError (not_an_available_linear_unit lu)).
    rewrite bad_linear_unit by assumption. repeat split.
  - exists (ValueError (not_an_available_angular_unit au)).
    rewrite bad_angular_unit by assumption. repeat split.
  - destruct H as [H | H]; congruence.
Qed.

(** C3, as the specification states it, fails: on a [Scan] that an
    accessor has sorted, [add_measurement(1, 0, linear_unit='bogus')]
    raises and leaves a state that differs from the one before the call,
    the dirty flag being set again. *)
Lemma add_measurement_invalid_unit_mutates :
  let s0 := snd (distances Np.insertion_numpy Scan_init) in
  let r := add_measurement 1 0 0 0 "bogus" "degrees" s0 in
  fst r = Raise (ValueError (not_an_available_linear_unit "bogus")) /\
  _unsorted s0 = false /\ _unsorted (snd r) = true /\ snd r <> s0.
Proof.
  repeat split. intros H. apply (f_equal _unsorted) in H. discriminate H.
Qed.

Lemma add_measurement_invalid_unit_witness :
  exists ex,
    add_measurement 1 0 0 0 "bogus" "degrees" Scan_init =
    (Raise ex, set_unsorted true Scan_init) /\
    kind ex = InvalidUnit /\
    _distances (set_unsorted true Scan_init) = _distances Scan_init /\
    _angles (set_unsorted true Scan_init) = _angles Scan_init /\
    _intensities (set_unsorted true Scan_init) = _intensities Scan_init /\
    _error_codes (set_unsorted true Scan_init) = _error_codes Scan_init /\
    _distance_max (set_unsorted true Scan_init) = _distance_max Scan_init /\
    _unsorted (set_unsorted true Scan_init) = true.
Proof.
  exact (@add_measurement_invalid_unit 1 0 0 0 "bogus" "degrees" Scan_init
           (or_introl eq_refl)).
Defined.

End AddMeasurement.

(* ===================================================================== *)
(** * The order of a numpy sort, and the insertion sort *)
(* ===================================================================== *)

Module SortFacts.

Open Scope float_scope.

(** The order on the specification of binary64 that [Np.lt] computes. *)
Lemma lt_spec (a b : float) :
  Np.lt a b =
  (SFltb (Prim2SF a) (Prim2SF b) ||
   (negb (SFeqb (Prim2SF b) (Prim2SF b)) &&
    negb (negb (SFeqb (Prim2SF a) (Prim2SF a)))))%bool.
Proof.
  unfold Np.lt, PrimFloat.is_nan. now rewrite FloatAxioms.ltb_spec, !FloatAxioms.eqb_spec.
Qed.

Ltac order_cases :=
  repeat match goal with
  | H : context [Z.compare ?a ?b] |- _ => destruct (Z.compare_spec a b); subst
  | H : context [Pos.compare ?a ?b] |- _ =>
      destruct (Pos.compare_spec a b); subst
  | |- context [Z.compare ?a ?b] => destruct (Z.compare_spec a b); subst
  | |- context [Pos.compare ?a ?b] => destruct (Pos.compare_spec a b); subst
  end; cbn in *; first [reflexivity | discriminate | lia].

Ltac sf_unfold :=
  unfold SFltb, SFeqb, SFcompare;
  repeat match goal with s : bool |- _ => destruct s end;
  cbn;
  change (Pos.compare_cont Eq) with Pos.compare in *.

Lemma lt_asym (a b : float) : Np.lt a b = true -> Np.lt b a = false.
Proof.
  rewrite !lt_spec.
  destruct (Prim2SF a) as [sx|sx| |sx mx ex],
           (Prim2SF b) as [sy|sy| |sy my ey]; sf_unfold;
    try reflexivity; try discriminate; intros H; order_cases.
Qed.

(** [Np.le] is transitive: stated on [Np.lt], of which it is the
    negation. *)
Lemma lt_false_trans (a b c : float) :
  Np.lt a b = false -> Np.lt b c = false -> Np.lt a c = false.
Proof.
  rewrite !lt_spec.
  destruct (Prim2SF a) as [sx|sx| |sx mx ex],
           (Prim2SF b) as [sy|sy| |sy my ey],
           (Prim2SF c) as [sz|sz| |sz mz ez];
    sf_unfold; try reflexivity; try discriminate;
    intros H1; try discriminate; intros H2; try discriminate;
    try reflexivity.
  all: order_cases.
Qed.

(** Without nan, [Np.le] is the comparison [<=] of the floats. *)
Lemma le_leb (a b : float) :
  PrimFloat.is_nan a = false -> PrimFloat.is_nan b = false ->
  Np.le a b = (a <=? b).
Proof.
  unfold Np.le. rewrite lt_spec, FloatAxioms.leb_spec. unfold PrimFloat.is_nan.
  rewrite !FloatAxioms.eqb_spec.
  destruct (Prim2SF a) as [sx|sx| |sx mx ex],
           (Prim2SF b) as [sy|sy| |sy my ey];
    unfold SFleb; sf_unfold;
    try reflexivity; try discriminate; intros H1 H2;
    try discriminate; order_cases.
Qed.

Section Insertion.

Variable keys : list float.

Abbreviation before :=
  (fun i j : nat => Np.le (nth i keys nan) (nth j keys nan) = true).

Lemma insert_ndx_perm (i : nat) (l : list nat) :
  Permutation (Np.insert_ndx keys i l) (i :: l).
Proof.
  induction l as [|j l IH]; cbn; [reflexivity|].
  destruct (Np.lt _ _); [reflexivity|].
  rewrite IH. apply perm_swap.
Qed.

Lemma insert_ndx_sorted (i : nat) (l : list nat) :
  StronglySorted before l -> StronglySorted before (Np.insert_ndx keys i l).
Proof.
  induction 1 as [|j l Hs IH Hj]; cbn.
  - repeat constructor.
  - destruct (Np.lt (nth i keys nan) (nth j keys nan)) eqn:Hlt.
    + constructor; [constructor; assumption|].
      assert (Hij : before i j).
      { unfold Np.le. now rewrite (lt_asym _ _ Hlt). }
      constructor; [assumption|].
      rewrite Forall_forall in *. intros k Hk. specialize (Hj k Hk).
      cbv beta in *. unfold Np.le in *.
      rewrite negb_true_iff in *.
      now apply lt_false_trans with (b := nth j keys nan).
    + constructor; [assumption|].
      rewrite Forall_forall in *. intros k Hk.
      apply (Permutation_in _ (insert_ndx_perm i l)) in Hk.
      destruct Hk as [<- | Hk]; [|now apply Hj].
      unfold Np.le. now rewrite Hlt.
Qed.

Lemma insert_all_perm (todo done : list nat) :
  Permutation (fold_left (fun sorted i => Np.insert_ndx keys i sorted)
                         todo done)
              (done ++ todo).
Proof.
  revert done. induction todo as [|i todo IH]; intros done; cbn.
  - now rewrite app_nil_r.
  - rewrite IH, insert_ndx_perm. apply Permutation_middle.
Qed.

Lemma insert_all_sorted (todo done : list nat) :
  StronglySorted before done ->
  StronglySorted before
    (fold_left (fun sorted i => Np.insert_ndx keys i sorted) todo done).
Proof.
  revert done. induction todo as [|i todo IH]; intros done Hd; cbn.
  - assumption.
  - apply IH. now apply insert_ndx_sorted.
Qed.

End Insertion.

Lemma StronglySorted_map {A B : Type} (f : A -> B) (R : B -> B -> Prop)
    (l : list A) :
  StronglySorted (fun a b => R (f a) (f b)) l -> StronglySorted R (map f l).
Proof.
  induction 1 as [|a l Hs IH Ha]; cbn; constructor; [assumption|].
  rewrite Forall_forall in *. intros b Hb.
  apply in_map_iff in Hb. destruct Hb as (c & <- & Hc). now apply Ha.
Qed.

(** The insertion sort keeps the promise of [np.argsort]. *)
Lemma insertion_argsort_sorts : Np.sorts Np.insertion_argsort.
Proof.
  intros keys. unfold Np.insertion_argsort. split.
  - apply (insert_all_perm keys (seq 0 (List.length keys)) []).
  - apply StronglySorted_map with (f := fun i => nth i keys nan).
    apply insert_all_sorted. constructor.
Qed.

End SortFacts.

Module ScanFacts.

Import Lds Client.
Open Scope float_scope.

Section Take.

Context {A : Type}.

Lemma map_nth_seq (d : A) (arr : list A) :
  map (fun i => nth i arr d) (seq 0 (List.length arr)) = arr.
Proof.
  induction arr as [|v arr IH]; cbn; [reflexivity|].
  f_equal. rewrite <- seq_shift, map_map. exact IH.
Qed.

Lemma take_in_range (d : A) (arr : list A) (p : list nat) :
  Forall (fun i => (i < List.length arr)%nat) p ->
  Np.take arr p = Ok (map (fun i => nth i arr d) p).
Proof.
  induction 1 as [|i p Hi Hp IH]; cbn; [reflexivity|].
  rewrite (nth_error_nth' arr d Hi), IH. reflexivity.
Qed.

Lemma take_length (arr : list A) (p : list nat) (vs : list A) :
  Np.take arr p = Ok vs -> List.length vs = List.length p.
Proof.
  revert vs. induction p as [|i p IH]; cbn; intros vs H.
  - now inversion H.
  - destruct (nth_error arr i); [|discriminate].
    destruct (Np.take arr p); [|discriminate].
    inversion H; subst. cbn. f_equal. now apply IH.
Qed.

Lemma perm_seq_in_range (n : nat) (p : list nat) :
  Permutation p (seq 0 n) -> Forall (fun i => (i < n)%nat) p.
Proof.
  intros Hp. apply Forall_forall. intros i Hi.
  apply (Permutation_in _ Hp), in_seq in Hi. lia.
Qed.

(** Indexing by a permutation of the indices returns the elements in
    another order. *)
Lemma take_perm (arr : list A) (p : list nat) :
  Permutation p (seq 0 (List.length arr)) ->
  exists vs, Np.take arr p = Ok vs /\ Permutation vs arr.
Proof.
  intros Hp. destruct arr as [|d arr'] eqn:E.
  - apply Permutation_sym, Permutation_nil in Hp. subst p.
    exists []. split; reflexivity.
  - rewrite <- E in *. exists (map (fun i => nth i arr d) p). split.
    + apply take_in_range. now apply perm_seq_in_range.
    + etransitivity; [apply Permutation_map; exact Hp|].
      now rewrite map_nth_seq.
Qed.

Lemma take_seq (arr : list A) : Np.take arr (seq 0 (List.length arr)) = Ok arr.
Proof.
  destruct arr as [|d arr'] eqn:E; [reflexivity|]. rewrite <- E.
  rewrite (take_in_range d).
  - now rewrite map_nth_seq.
  - apply perm_seq_in_range. reflexivity.
Qed.

End Take.

Lemma nth_error_combine {A B : Type} (a : list A) (b : list B) (i : nat)
    (v : A) (w : B) :
  nth_error a i = Some v -> nth_error b i = Some w ->
  nth_error (combine a b) i = Some (v, w).
Proof.
  revert b i. induction a as [|v' a IH]; intros [|w' b] [|i]; cbn;
    try discriminate.
  - now intros [= ->] [= ->].
  - apply IH.
Qed.

(** Indexing two arrays by the same indices keeps their elements paired. *)
Lemma take_combine {A B : Type} (a : list A) (b : list B) (p : list nat)
    (va : list A) (vb : list B) :
  Np.take a p = Ok va -> Np.take b p = Ok vb ->
  Np.take (combine a b) p = Ok (combine va vb).
Proof.
  revert va vb. induction p as [|i p IH]; cbn; intros va vb Ha Hb.
  - inversion Ha; inversion Hb; reflexivity.
  - destruct (nth_error a i) as [v|] eqn:Ea; [|discriminate].
    destruct (nth_error b i) as [w|] eqn:Eb; [|discriminate].
    destruct (Np.take a p) as [va'|]; [|discriminate].
    destruct (Np.take b p) as [vb'|]; [|discriminate].
    inversion Ha; inversion Hb; subst.
    rewrite (nth_error_combine _ _ _ Ea Eb), (IH va' vb' eq_refl eq_refl).
    reflexivity.
Qed.

Lemma combine_snoc {A B : Type} (a : list A) (b : list B) (v : A) (w : B) :
  List.length a = List.length b ->
  combine (a ++ [v]) (b ++ [w]) = combine a b ++ [(v, w)].
Proof.
  revert b. induction a as [|v' a IH]; intros [|w' b]; cbn; try discriminate.
  - reflexivity.
  - intros [= H]. now rewrite IH.
Qed.

Lemma multiply_same_length (a b : list float) :
  List.length a = List.length b -> Np.multiply a b = Ok (Np.zip_mul a b).
Proof.
  intros H. unfold Np.multiply.
  destruct a as [|v [|v' a]], b as [|w [|w' b]]; try discriminate;
    try reflexivity.
  rewrite H, Nat.eqb_refl. reflexivity.
Qed.

Lemma zip_mul_length (a b : list float) :
  List.length a = List.length b ->
  List.length (Np.zip_mul a b) = List.length a.
Proof.
  revert b. induction a as [|v a IH]; intros [|w b]; cbn; try discriminate.
  - reflexivity.
  - intros [= H]. now rewrite IH.
Qed.

Lemma StronglySorted_weaken {A : Type} (R R' : A -> A -> Prop) (P : A -> Prop)
    (l : list A) :
  (forall a b, P a -> P b -> R a b -> R' a b) ->
  Forall P l -> StronglySorted R l -> StronglySorted R' l.
Proof.
  intros HR HP Hs. induction Hs as [|a l Hs IH Ha]; constructor.
  - apply IH. now inversion HP.
  - inversion HP as [|? ? Pa Pl]; subst.
    rewrite Forall_forall in *. intros b Hb. apply HR; auto.
Qed.

Section Sorting.

Variable np : Np.numpy.

(** A scan that is not dirty is left alone, whatever [np.argsort] is. *)
Lemma sort_clean (s : Scan) :
  _unsorted s = false -> _sort_measurements np s = (Ok tt, s).
Proof.
  intros H. unfold _sort_measurements, bind, get. rewrite H. reflexivity.
Qed.

(** A dirty scan is indexed by the result of [np.argsort] on its angles. *)
Lemma sort_dirty (s : Scan) (vd va : list float) (vi ve : list Z) :
  _unsorted s = true ->
  let p := Np.argsort np (_angles s) in
  Np.take (_distances s) p = Ok vd ->
  Np.take (_angles s) p = Ok va ->
  Np.take (_intensities s) p = Ok vi ->
  Np.take (_error_codes s) p = Ok ve ->
  _sort_measurements np s = (Ok tt, mkScan vd va vi ve false (_distance_max s)).
Proof.
  intros H p Hd Ha Hi He.
  unfold _sort_measurements, bind, get, lift, assign. rewrite H. cbn.
  fold p. rewrite Hd. cbn. rewrite Ha. cbn. rewrite Hi. cbn. rewrite He.
  reflexivity.
Qed.

Lemma coordinate_sorted (f : float -> float) (s s' : Scan) :
  _sort_measurements np s = (Ok tt, s') -> aligned s' ->
  (_sort_measurements np ;;
   self <- get ;;
   lift (Np.multiply (_distances self) (map f (_angles self)))) s =
  (Ok (Np.zip_mul (_distances s') (map f (_angles s'))), s').
Proof.
  intros Hs (Hd & _). unfold bind, get, lift. rewrite Hs. cbv beta iota.
  rewrite multiply_same_length by now rewrite length_map.
  reflexivity.
Qed.

(** Once the arrays are in order, each accessor shows them as they are. *)
Lemma read_sorted (a : accessor) (s s' : Scan) :
  _sort_measurements np s = (Ok tt, s') ->
  _unsorted s' = false -> aligned s' ->
  read np a s = (Ok (shown np a s'), s').
Proof.
  intros Hs Hc Hal.
  pose proof (sort_clean s' Hc) as Hs'.
  pose proof (coordinate_sorted (Np.cos np) s Hs Hal) as Hx.
  pose proof (coordinate_sorted (Np.sin np) s Hs Hal) as Hy.
  pose proof (coordinate_sorted (Np.sin np) s' Hs' Hal) as Hy'.
  destruct a; unfold read, distances, angles, intensities, error_codes.
  1-4: unfold bind, get, ret; rewrite Hs; reflexivity.
  - unfold bind at 1. unfold x. rewrite Hx. reflexivity.
  - unfold bind at 1. unfold y. rewrite Hy. reflexivity.
  - unfold bind at 1. unfold points. unfold bind at 1. unfold x.
    rewrite Hx. cbv beta iota. unfold bind at 1. unfold y. rewrite Hy'.
    cbv beta iota. unfold lift, Np.vstack. destruct Hal as (Hd & _).
    rewrite !zip_mul_length, Nat.eqb_refl by now rewrite length_map.
    reflexivity.
Qed.

End Sorting.

End ScanFacts.

Module ScanInvariant.

Import Lds Client ScanFacts.
Open Scope float_scope.

Lemma measurements_length (s : Scan) :
  aligned s -> List.length (measurements s) = List.length (_angles s).
Proof.
  intros (Hd & Hi & He). unfold measurements.
  rewrite !length_combine. lia.
Qed.

(** The four arrays indexed by the same indices: the measurements indexed
    by them. *)
Lemma measurements_take (s s' : Scan) (p : list nat) :
  Np.take (_distances s) p = Ok (_distances s') ->
  Np.take (_angles s) p = Ok (_angles s') ->
  Np.take (_intensities s) p = Ok (_intensities s') ->
  Np.take (_error_codes s) p = Ok (_error_codes s') ->
  Np.take (measurements s) p = Ok (measurements s').
Proof.
  intros Hd Ha Hi He. unfold measurements.
  repeat apply take_combine; assumption.
Qed.

Lemma measurements_perm (s s' : Scan) (p : list nat) :
  aligned s ->
  Permutation p (seq 0 (List.length (_angles s))) ->
  Np.take (_distances s) p = Ok (_distances s') ->
  Np.take (_angles s) p = Ok (_angles s') ->
  Np.take (_intensities s) p = Ok (_intensities s') ->
  Np.take (_error_codes s) p = Ok (_error_codes s') ->
  Permutation (measurements s') (measurements s).
Proof.
  intros Hal Hp Hd Ha Hi He.
  pose proof (measurements_take s s' p Hd Ha Hi He) as Hm.
  rewrite <- (measurements_length Hal) in Hp.
  destruct (take_perm (measurements s) Hp) as (vs & Hvs & Hperm).
  congruence.
Qed.

Section Views.

Variable np : Np.numpy.
Hypothesis np_sorts : Np.sorts (Np.argsort np).

(** What the sort-if-dirty step does to a scan whose arrays have one
    length and are in order when the flag says so. *)
Lemma sorted_view (s : Scan) :
  aligned s ->
  (_unsorted s = false ->
   StronglySorted (fun a b => Np.le a b = true) (_angles s)) ->
  exists p s',
    Permutation p (seq 0 (List.length (_angles s))) /\
    Np.take (_distances s) p = Ok (_distances s') /\
    Np.take (_angles s) p = Ok (_angles s') /\
    Np.take (_intensities s) p = Ok (_intensities s') /\
    Np.take (_error_codes s) p = Ok (_error_codes s') /\
    StronglySorted (fun a b => Np.le a b = true) (_angles s') /\
    aligned s' /\ _unsorted s' = false /\
    _distance_max s' = _distance_max s /\
    _sort_measurements np s = (Ok tt, s').
Proof.
  intros Hal Hclean. pose proof Hal as (Hd & Hi & He).
  destruct (_unsorted s) eqn:Hu.
  - destruct (np_sorts (_angles s)) as [Hp Hsorted].
    set (p := Np.argsort np (_angles s)) in *.
    assert (Hrange : Forall (fun i => (i < List.length (_angles s))%nat) p)
      by now apply perm_seq_in_range.
    pose proof (take_in_range nan (_angles s) Hrange) as Ha.
    destruct (take_perm (_distances s)) with (p := p) as (vd & Hvd & _);
      [now rewrite Hd|].
    destruct (take_perm (_intensities s)) with (p := p) as (vi & Hvi & _);
      [now rewrite Hi|].
    destruct (take_perm (_error_codes s)) with (p := p) as (ve & Hve & _);
      [now rewrite He|].
    exists p, (mkScan vd (map (fun i => nth i (_angles s) nan) p) vi ve
                      false (_distance_max s)).
    cbn [_distances _angles _intensities _error_codes _unsorted
         _distance_max].
    repeat split; try assumption;
      cbn [_distances _angles _intensities _error_codes].
    + now rewrite (take_length _ _ Hvd), length_map.
    + now rewrite (take_length _ _ Hvi), length_map.
    + now rewrite (take_length _ _ Hve), length_map.
    + now apply sort_dirty.
  - exists (seq 0 (List.length (_angles s))), s.
    repeat split; try assumption; try reflexivity.
    + rewrite <- Hd. apply take_seq.
    + apply take_seq.
    + rewrite <- Hi. apply take_seq.
    + rewrite <- He. apply take_seq.
    + now apply Hclean.
    + now apply sort_clean.
Qed.

(** What holds of a scan after the calls [calls] on a new one. *)
Lemma run_invariant (calls : list call) :
  let s := run np calls in
  aligned s /\ _distance_max s = 5 /\
  Permutation (measurements s) (flat_map added calls) /\
  (_unsorted s = false ->
   StronglySorted (fun a b => Np.le a b = true) (_angles s)).
Proof.
  induction calls as [|c calls IH] using rev_ind.
  - cbn. split; [repeat split|]. split; [reflexivity|].
    split; [constructor|discriminate].
  - unfold run in *. rewrite fold_left_app, flat_map_app. cbn [fold_left].
    set (s := fold_left (exec np) calls Scan_init) in *.
    cbv zeta in IH. destruct IH as (Hal & Hmax & Hperm & Hclean).
    destruct c as [d a i e lu au | a]; cbn [exec flat_map added].
    + rewrite app_nil_r.
      destruct (AddMeasurement.units_cases lu au)
        as [Hlu | [[Hlu Hau] | [Hlu Hau]]].
      * rewrite !AddMeasurement.bad_linear_unit by assumption.
        cbn. rewrite app_nil_r. repeat split; try apply Hal; try assumption.
        discriminate.
      * rewrite !AddMeasurement.bad_angular_unit by assumption.
        cbn. rewrite app_nil_r. repeat split; try apply Hal; try assumption.
        discriminate.
      * rewrite !AddMeasurement.good_units by assumption.
        destruct Hal as (Hd & Hi & He).
        cbn [snd]. cbv zeta. unfold aligned, measurements.
        cbn [_distances _angles _intensities _error_codes _unsorted
             _distance_max Scan_init app combine].
        rewrite !length_app. cbn [List.length].
        repeat split; try lia; try assumption; try discriminate.
        rewrite !combine_snoc; try (rewrite ?length_combine; lia).
        rewrite Hmax. apply Permutation_app; [exact Hperm|reflexivity].
    + rewrite app_nil_r.
      destruct (sorted_view Hal Hclean)
        as (p & s' & Hp & Hd & Ha & Hi & He & Hs & Hal' & Hu & Hm & Hsort).
      rewrite (read_sorted np a s Hsort Hu Hal'). cbn [snd].
      split; [exact Hal'|]. split; [congruence|]. split; [|intros _; exact Hs].
      rewrite (@measurements_perm s s' p Hal Hp Hd Ha Hi He). exact Hperm.
Qed.

End Views.

(** C4: after any sequence of calls of [add_measurement] and of accessors
    on a new [Scan], with an [np.argsort] that sorts, the four arrays have
    one length and hold, index by index, the measurements that the calls
    added; and a call of any accessor then succeeds and shows the arrays
    indexed by one permutation of their indices, the same for the four,
    with the angles in ascending order (in the order of [<=] when no angle
    is nan). *)
Theorem accessors_sorted_and_aligned (np : Np.numpy) (calls : list call) :
  Np.sorts (Np.argsort np) ->
  let s := run np calls in
  aligned s /\
  Permutation (measurements s) (flat_map added calls) /\
  exists p s',
    Permutation p (seq 0 (List.length (_angles s))) /\
    Np.take (_distances s) p = Ok (_distances s') /\
    Np.take (_angles s) p = Ok (_angles s') /\
    Np.take (_intensities s) p = Ok (_intensities s') /\
    Np.take (_error_codes s) p = Ok (_error_codes s') /\
    aligned s' /\
    Permutation (measurements s') (flat_map added calls) /\
    StronglySorted (fun a b => Np.le a b = true) (_angles s') /\
    (Forall (fun a => PrimFloat.is_nan a = false) (_angles s') ->
     StronglySorted (fun a b => (a <=? b) = true) (_angles s')) /\
    forall a, read np a s = (Ok (shown np a s'), s').
Proof.
  intros Hnp s.
  destruct (@run_invariant np Hnp calls) as (Hal & Hmax & Hperm & Hclean).
  fold s in Hal, Hmax, Hperm, Hclean.
  destruct (@sorted_view np Hnp s Hal Hclean)
    as (p & s' & Hp & Hd & Ha & Hi & He & Hs & Hal' & Hu & Hm & Hsort).
  split; [assumption|]. split; [assumption|].
  exists p, s'. repeat split; try assumption; try apply Hal'.
  - rewrite (@measurements_perm s s' p Hal Hp Hd Ha Hi He). exact Hperm.
  - intros Hnan. revert Hs.
    apply StronglySorted_weaken with (P := fun a => PrimFloat.is_nan a = false);
      [|assumption].
    intros a b Pa Pb. now rewrite SortFacts.le_leb.
  - intros a. now apply read_sorted.
Qed.

Lemma accessors_sorted_and_aligned_witness :
  let np := Np.insertion_numpy in
  let s := run np [AddMeasurement 2000 90 7 0 "millimeters" "degrees";
                   AddMeasurement 1000 10 8 1 "millimeters" "degrees";
                   Read Angles;
                   AddMeasurement 3 45 9 0 "meters" "degrees"] in
  aligned s /\
  Permutation (measurements s)
              [(2, Np.pi / 2, 7%Z, 0%Z); (1, 10 * Np.pi / 180, 8%Z, 1%Z);
               (3, Np.pi / 4, 9%Z, 0%Z)].
Proof.
  intros np s.
  destruct (@accessors_sorted_and_aligned np
              [AddMeasurement 2000 90 7 0 "millimeters" "degrees";
               AddMeasurement 1000 10 8 1 "millimeters" "degrees";
               Read Angles;
               AddMeasurement 3 45 9 0 "meters" "degrees"]
              SortFacts.insertion_argsort_sorts) as (Hal & Hperm & _).
  split; [exact Hal | exact Hperm].
Defined.

(** The same calls, run: the accessors show the three measurements by
    ascending angle. *)
Example accessors_after_three_measurements :
  let np := Np.insertion_numpy in
  let s := run np [AddMeasurement 2000 90 7 0 "millimeters" "degrees";
                   AddMeasurement 1000 10 8 1 "millimeters" "degrees";
                   Read Angles;
                   AddMeasurement 3 45 9 0 "meters" "degrees"] in
  fst (read np Angles s) =
    Ok (Floats [10 * Np.pi / 180; Np.pi / 4; Np.pi / 2]) /\
  fst (read np Distances s) = Ok (Floats [1; 3; 2]) /\
  fst (read np Intensities s) = Ok (Ints [8%Z; 9%Z; 7%Z]) /\
  fst (read np ErrorCodes s) = Ok (Ints [1%Z; 0%Z; 0%Z]).
Proof. repeat split; vm_compute; reflexivity. Qed.

End ScanInvariant.

Module Memo.

Import Lds Client ScanFacts.
Open Scope float_scope.

Ltac run_method :=
  unfold read, points, x, y, distances, angles, intensities, error_codes,
    _sort_measurements, bind, get, ret, lift, assign.

Ltac split_results :=
  repeat match goal with
  | |- context [match ?r with Ok _ => _ | Raise _ => _ end] =>
      destruct r eqn:?; cbn
  | |- context [let (_, _) := (if ?b then _ else _) in _] =>
      destruct b eqn:?; cbn
  end.

(** On a scan that is not dirty an accessor leaves the state as it is and
    does not depend on [np.argsort]. *)
Lemma read_clean (np : Np.numpy) (a : accessor) (s : Scan) :
  _unsorted s = false ->
  snd (read np a s) = s /\
  forall f : list float -> list nat,
    read (Np.Build_numpy f (Np.cos np) (Np.sin np)) a s = read np a s.
Proof.
  intros Hu. destruct a; run_method; rewrite Hu; cbn;
    split_results; rewrite ?Hu; cbn; split_results; auto.
Qed.

(** The sort-if-dirty step, when it returns, leaves a scan that is not
    dirty. *)
Lemma sort_Ok_clean (np : Np.numpy) (s s' : Scan) (u : unit) :
  _sort_measurements np s = (Ok u, s') -> _unsorted s' = false.
Proof.
  run_method. destruct (_unsorted s) eqn:Hu; cbn.
  - split_results; intros H; inversion H; subst; reflexivity.
  - intros H; inversion H; subst; assumption.
Qed.

(** An accessor starts with the sort-if-dirty step: it returns what it
    returns on the scan that this step leaves, and raises when the step
    raises. *)
Lemma read_via_sort (np : Np.numpy) (a : accessor) (s : Scan) :
  match _sort_measurements np s with
  | (Ok _, s') => read np a s = read np a s'
  | (Raise e, s') => read np a s = (Raise e, s')
  end.
Proof.
  destruct (_sort_measurements np s) as [[[]|e] s'] eqn:Hs.
  - pose proof (sort_clean np s' (sort_Ok_clean np s Hs)) as Hs'.
    destruct a;
      unfold read, points, x, y, distances, angles, intensities,
        error_codes, bind, get, ret, lift;
      rewrite Hs, ?Hs'; cbv beta iota; rewrite ?Hs'; reflexivity.
  - destruct a;
      unfold read, points, x, y, distances, angles, intensities,
        error_codes, bind, get, ret, lift;
      rewrite Hs; reflexivity.
Qed.

(** C5: when a call of an accessor has returned, the same call again
    returns the same value and leaves the same state; the scan is not
    dirty, so that the second call sorts nothing: the sort-if-dirty step
    leaves the state alone, and the call gives the same value whatever
    [np.argsort] would compute.  A call of [add_measurement] then sets the
    dirty flag, and on a dirty scan the sort-if-dirty step indexes the
    four arrays anew by [np.argsort] of the angles and clears the flag. *)
Theorem accessor_twice (np : Np.numpy) (a : accessor) (s s1 : Scan)
    (v : view) :
  read np a s = (Ok v, s1) ->
  read np a s1 = (Ok v, s1) /\
  _unsorted s1 = false /\
  (forall f : list float -> list nat,
     let np' := Np.Build_numpy f (Np.cos np) (Np.sin np) in
     _sort_measurements np' s1 = (Ok tt, s1) /\
     read np' a s1 = (Ok v, s1)) /\
  (forall d an i e lu au,
     _unsorted (snd (add_measurement d an i e lu au s1)) = true) /\
  (forall s2 s3 : Scan,
     _unsorted s2 = true ->
     _sort_measurements np s2 = (Ok tt, s3) ->
     let p := Np.argsort np (_angles s2) in
     Np.take (_distances s2) p = Ok (_distances s3) /\
     Np.take (_angles s2) p = Ok (_angles s3) /\
     Np.take (_intensities s2) p = Ok (_intensities s3) /\
     Np.take (_error_codes s2) p = Ok (_error_codes s3) /\
     _unsorted s3 = false).
Proof.
  intros H.
  assert (Hmid : exists s', _unsorted s' = false /\ read np a s' = (Ok v, s1)).
  { pose proof (read_via_sort np a s) as Hv.
    destruct (_sort_measurements np s) as [[[]|e] s'] eqn:Hs.
    - exists s'. split; [exact (sort_Ok_clean np s Hs)|congruence].
    - congruence. }
  destruct Hmid as (s' & Hu' & H').
  pose proof (proj1 (read_clean np a s' Hu')) as Hs1.
  rewrite H' in Hs1. cbn in Hs1. subst s'.
  rename Hu' into Hu, H' into Hagain.
  destruct (read_clean np a s1 Hu) as [Hstate Hsame].
  split; [exact Hagain|]. split; [exact Hu|]. split; [|split].
  - intros f np'. split.
    + now apply sort_clean.
    + unfold np'. now rewrite Hsame.
  - intros d an i e lu au.
    destruct (AddMeasurement.units_cases lu au)
      as [Hlu | [[Hlu Hau] | [Hlu Hau]]].
    + now rewrite AddMeasurement.bad_linear_unit.
    + now rewrite AddMeasurement.bad_angular_unit.
    + now rewrite AddMeasurement.good_units.
  - intros s2 s3 H2. run_method. rewrite H2. cbn.
    split_results; intros E; inversion E; subst; cbn; auto.
Qed.

Lemma accessor_twice_witness :
  let np := Np.insertion_numpy in
  let s := run np [AddMeasurement 2000 90 7 0 "millimeters" "degrees";
                   AddMeasurement 1000 10 8 1 "millimeters" "degrees"] in
  let s1 := snd (read np Angles s) in
  read np Angles s1 = (Ok (Floats [10 * Np.pi / 180; Np.pi / 2]), s1) /\
  _unsorted s1 = false.
Proof.
  intros np s s1.
  destruct (@accessor_twice np Angles s s1
              (Floats [10 * Np.pi / 180; Np.pi / 2])
              ltac:(vm_compute; reflexivity)) as (Hagain & Hclean & _).
  split; [exact Hagain | exact Hclean].
Defined.

End Memo.

Module FileToStrings.

Import ScanParser Client.

Lemma append_empty_r (s : string) : (s ++ "")%string = s.
Proof. induction s as [|c s IH]; cbn; congruence. Qed.

Lemma append_append (s t u : string) :
  ((s ++ t) ++ u)%string = (s ++ t ++ u)%string.
Proof. induction s as [|c s IH]; cbn; congruence. Qed.

(** A line that closes no scan leaves the list of scans as it is. *)
Lemma body_no_close (l : locals) (line : string) :
  closes line = false -> scans (file_to_strings_body l line) = scans l.
Proof.
  unfold closes, file_to_strings_body.
  destruct (contains start_token line); cbn; [reflexivity|].
  intros ->. cbn. destruct (append_to_str l); reflexivity.
Qed.

Lemma no_close_scans (lines : list string) (l : locals) :
  forallb (fun line => negb (closes line)) lines = true ->
  scans (fold_left file_to_strings_body lines l) = scans l.
Proof.
  revert l. induction lines as [|line lines IH]; intros l; cbn;
    [reflexivity|].
  rewrite andb_true_iff, negb_true_iff. intros [Hc Hl].
  rewrite IH by assumption. now apply body_no_close.
Qed.

(** While no scan is being recorded, a line that starts none changes
    nothing. *)
Lemma body_idle (l : locals) (line : string) :
  append_to_str l = false -> starts line = false ->
  file_to_strings_body l line = l.
Proof.
  unfold starts, file_to_strings_body. intros -> ->.
  rewrite andb_false_r. reflexivity.
Qed.

(** Lines that complete no scan, read while none is being recorded. *)
Lemma quiet_scans (lines : list string) (l : locals) :
  append_to_str l = false -> quiet lines = true ->
  scans (fold_left file_to_strings_body lines l) = scans l.
Proof.
  unfold quiet. revert l.
  induction lines as [|line lines IH]; intros l Hl; cbn [from_start fold_left];
    [reflexivity|].
  destruct (starts line) eqn:Hs.
  - intros Hq. change (fold_left file_to_strings_body lines
                                 (file_to_strings_body l line))
      with (fold_left file_to_strings_body (line :: lines) l).
    now apply no_close_scans.
  - intros Hq. rewrite body_idle by assumption. now apply IH.
Qed.

(** A line that starts a scan empties the buffer and starts recording. *)
Lemma body_start (l : locals) (line : string) :
  starts line = true ->
  file_to_strings_body l line = mkLocals (scans l) EmptyString true.
Proof.
  unfold starts, file_to_strings_body. now intros ->.
Qed.

(** Lines of data are appended to the buffer while recording. *)
Lemma data_recorded (lines : list string) (sc : list string) (buf : string) :
  forallb is_data lines = true ->
  fold_left file_to_strings_body lines (mkLocals sc buf true) =
  mkLocals sc (buf ++ joined lines) true.
Proof.
  revert buf. induction lines as [|line lines IH]; intros buf; cbn.
  - intros _. now rewrite append_empty_r.
  - rewrite andb_true_iff. unfold is_data at 1.
    rewrite andb_true_iff, !negb_true_iff. intros [[Hs He] Hl].
    unfold file_to_strings_body at 2. rewrite Hs, He. cbn.
    rewrite IH by assumption. now rewrite append_append.
Qed.

(** A line that closes a scan saves the buffer and stops recording. *)
Lemma body_close (sc : list string) (buf line : string) :
  closes line = true ->
  file_to_strings_body (mkLocals sc buf true) line =
  mkLocals (sc ++ [buf]) buf false.
Proof.
  unfold closes, file_to_strings_body.
  rewrite andb_true_iff, negb_true_iff. now intros [-> ->].
Qed.

(** A completed scan, read while none is being recorded. *)
Lemma block_read (b : block) (l : locals) :
  append_to_str l = false -> well_formed b = true ->
  exists buf,
    fold_left file_to_strings_body (block_lines b) l =
    mkLocals (scans l ++ [joined (data b)]) buf false.
Proof.
  unfold well_formed, block_lines. rewrite !andb_true_iff.
  intros Hl [[[Hj Hs] Hd] He].
  rewrite fold_left_app. cbn [fold_left]. rewrite fold_left_app.
  rewrite body_start by assumption.
  rewrite quiet_scans by assumption.
  rewrite data_recorded by assumption. cbn [fold_left].
  rewrite body_close by assumption. cbn. eauto.
Qed.

Lemma blocks_read (blocks : list block) (rest : list string) (l : locals) :
  append_to_str l = false ->
  forallb well_formed blocks = true ->
  exists l',
    append_to_str l' = false /\
    scans l' = scans l ++ map (fun b => joined (data b)) blocks /\
    fold_left file_to_strings_body (flat_map block_lines blocks ++ rest) l =
    fold_left file_to_strings_body rest l'.
Proof.
  revert l. induction blocks as [|b blocks IH]; intros l Hl; cbn.
  - intros _. exists l. now rewrite app_nil_r.
  - rewrite andb_true_iff. intros [Hb Hbs].
    destruct (block_read b l Hl Hb) as (buf & Hread).
    rewrite <- app_assoc, fold_left_app, Hread.
    destruct (IH (mkLocals (scans l ++ [joined (data b)]) buf false)
                 eq_refl Hbs) as (l' & Hl' & Hsc & Hfold).
    exists l'. split; [assumption|]. split; [|assumption].
    rewrite Hsc. cbn. now rewrite <- app_assoc.
Qed.

Lemma from_start_app (l m : list string) :
  from_start (l ++ m) =
  match from_start l with
  | [] => from_start m
  | _ :: _ => from_start l ++ m
  end.
Proof.
  induction l as [|a l IH]; cbn; [reflexivity|].
  destruct (starts a); [reflexivity|assumption].
Qed.

(** The last line of a list that starts a scan, when there is one. *)
Lemma last_start (l : list string) :
  from_start l = [] \/
  exists j st d,
    l = j ++ st :: d /\ starts st = true /\
    forallb (fun line => negb (starts line)) d = true.
Proof.
  induction l as [|a l IH]; [now left|].
  destruct IH as [Hnone | (j & st & d & -> & Hst & Hd)].
  - cbn. destruct (starts a) eqn:Ha; [|now left].
    right. exists [], a, l. repeat split; [assumption|].
    clear -Hnone. induction l as [|b l IH]; cbn in *; [reflexivity|].
    destruct (starts b); [discriminate|]. now apply IH.
  - right. exists (a :: j), st, d. repeat split; assumption.
Qed.

Lemma quiet_split (j : list string) (st : string) (d : list string) :
  quiet (j ++ st :: d) = true -> starts st = true ->
  quiet j = true /\ forallb (fun line => negb (closes line)) d = true.
Proof.
  unfold quiet. intros H Hst. rewrite from_start_app in H.
  cbn [from_start] in H. rewrite Hst in H.
  destruct (from_start j) as [|a fj].
  - cbn [forallb] in H. rewrite andb_true_iff in H.
    split; [reflexivity|apply H].
  - rewrite forallb_app in H. cbn [forallb] in H.
    rewrite !andb_true_iff in H. split; [|apply H].
    cbn [forallb]. rewrite andb_true_iff. apply H.
Qed.

Lemma data_lines (d : list string) :
  forallb (fun line => negb (starts line)) d = true ->
  forallb (fun line => negb (closes line)) d = true ->
  forallb is_data d = true.
Proof.
  induction d as [|a d IH]; cbn; [reflexivity|].
  rewrite !andb_true_iff. intros [Hs Hd] [Hc Hd'].
  split; [|now apply IH].
  unfold is_data, starts, closes in *.
  destruct (contains start_token a), (contains end_token a);
    cbn in *; congruence.
Qed.

(** Every file is a sequence of completed scans followed by lines that
    complete none: the shape that the result of [file_to_strings] is
    stated for below leaves no file out. *)
Lemma every_file_decomposes (scan_file : list string) :
  exists blocks rest,
    scan_file = flat_map block_lines blocks ++ rest /\
    forallb well_formed blocks = true /\ quiet rest = true.
Proof.
  induction scan_file as [|x scan_file IH] using rev_ind.
  - exists [], []. repeat split.
  - destruct IH as (blocks & rest & -> & Hb & Hr).
    destruct (quiet (rest ++ [x])) eqn:Hq.
    + exists blocks, (rest ++ [x]). rewrite app_assoc. repeat split; assumption.
    + assert (Hx : closes x = true /\ from_start rest <> []).
      { unfold quiet in Hq, Hr. rewrite from_start_app in Hq.
        destruct (from_start rest) as [|a fr].
        - cbn [from_start] in Hq.
          destruct (starts x) eqn:Hsx; cbn [forallb] in Hq;
            [|discriminate].
          unfold closes, starts in *. rewrite Hsx in Hq. discriminate.
        - rewrite forallb_app, Hr in Hq. cbn in Hq.
          rewrite andb_true_r in Hq. apply negb_false_iff in Hq.
          split; [assumption|discriminate]. }
      destruct Hx as [Hx Hstart].
      destruct (last_start rest) as [Hnone | (j & st & d & -> & Hst & Hd)];
        [contradiction|].
      destruct (quiet_split j st d Hr Hst) as [Hj Hc].
      exists (blocks ++ [mkBlock j st d x]), [].
      rewrite flat_map_app, forallb_app, Hb. cbn [flat_map forallb].
      unfold block_lines at 2. unfold well_formed.
      cbn [junk start_line data end_line].
      rewrite Hj, Hst, Hx, (data_lines d Hd Hc).
      repeat split. rewrite !app_nil_r, <- !app_assoc. reflexivity.
Qed.

(** C7: for a file made of completed scans, each of them lines that
    complete no scan, a line with the start token, lines of data and a
    line with the end token, followed by lines that complete no scan,
    [file_to_strings] returns one string for each completed scan, in the
    order of the file: the lines of data of the scan, one after the other,
    without the two marker lines.  The lines before a start token are
    dropped, and so is a scan that the end of the file leaves open. *)
Theorem file_to_strings_blocks (blocks : list block) (rest : list string) :
  forallb well_formed blocks = true ->
  quiet rest = true ->
  file_to_strings (flat_map block_lines blocks ++ rest) =
  map (fun b => joined (data b)) blocks.
Proof.
  intros Hb Hr. unfold file_to_strings.
  destruct (blocks_read blocks rest (mkLocals [] EmptyString false)
                        eq_refl Hb) as (l' & Hl' & Hsc & Hfold).
  rewrite Hfold, quiet_scans by assumption. exact Hsc.
Qed.

Lemma file_to_strings_blocks_witness :
  file_to_strings
    [ln "LDS log"; ln "AngleInDegrees,DistInMM,Intensity,ErrorCodeHEX";
     ln "0,100,5,0"; ln "1,150,6,0"; ln "ROTATION_SPEED,4.98";
     ln "ROTATION_SPEED,4.99"; ln "AngleInDegrees"; ln "0,200,7,0";
     ln "ROTATION_SPEED,5.01";
     ln "AngleInDegrees"; ln "0,300,9,0"] =
  [(ln "0,100,5,0" ++ ln "1,150,6,0")%string; ln "0,200,7,0"].
Proof.
  exact (@file_to_strings_blocks
           [mkBlock [ln "LDS log"]
                    (ln "AngleInDegrees,DistInMM,Intensity,ErrorCodeHEX")
                    [ln "0,100,5,0"; ln "1,150,6,0"]
                    (ln "ROTATION_SPEED,4.98");
            mkBlock [ln "ROTATION_SPEED,4.99"] (ln "AngleInDegrees")
                    [ln "0,200,7,0"] (ln "ROTATION_SPEED,5.01")]
           [ln "AngleInDegrees"; ln "0,300,9,0"]
           eq_refl eq_refl).
Defined.

End FileToStrings.

Module FromString.

Import Lds ScanParser Client.
Open Scope float_scope.

Section Parser.

Variable py : builtins.

(** One iteration of the loop of [from_string], case by case. *)
Lemma body_cases (line : string) (prev : option float) (s : Scan) :
  from_string_body py line prev s =
  match split_at "," line with
  | [f0; f1; f2; f3] =>
      match py_float py f0 with
      | None => (Raise (ValueError (could_not_convert f0)), s)
      | Some angle =>
      match py_float py f1 with
      | None => (Raise (ValueError (could_not_convert f1)), s)
      | Some distance =>
      match py_int py f2 with
      | None => (Raise (ValueError (could_not_convert f2)), s)
      | Some intense =>
      match py_int py f3 with
      | None => (Raise (ValueError (could_not_convert f3)), s)
      | Some err =>
          let stored :=
            mkScan (_distances s ++
                      [if _distance_max s <? distance / 1000 then 0
                       else distance / 1000])
                   (_angles s ++ [angle * Np.pi / 180])
                   (_intensities s ++ [intense]) (_error_codes s ++ [err])
                   true (_distance_max s) in
          if distance <? 0 then
            (Raise (ValueError (is_an_invalid_distance distance)), s)
          else if (angle <? 0) || (359 <? angle) then
            (Raise (ValueError (is_an_invalid_angle angle)), s)
          else if (intense <? 0)%Z then
            (Raise (ValueError (is_an_invalid_intensity intense)), s)
          else if (err <? 0)%Z then
            (Raise (ValueError (is_an_invalid_error_code err)), s)
          else
            match prev with
            | None => (Ok (Some angle), stored)
            | Some p =>
                if angle <=? p then
                  (Raise (ValueError (was_not_an_increase angle p)), s)
                else (Ok (Some p), stored)
            end
      end end end end
  | _ => (Raise (ValueError (could_not_be_parsed line)), s)
  end.
Proof.
  unfold from_string_body.
  destruct (split_at "," line) as [|f0 [|f1 [|f2 [|f3 [|f4 l]]]]];
    try reflexivity.
  cbn [List.length Nat.eqb negb nth].
  unfold float_, int_, bind, raise, ret.
  destruct (py_float py f0) as [angle|]; [|reflexivity].
  destruct (py_float py f1) as [distance|]; [|reflexivity].
  destruct (py_int py f2) as [intense|]; [|reflexivity].
  destruct (py_int py f3) as [err|]; [|reflexivity].
  cbv zeta.
  destruct (distance <? 0); [reflexivity|].
  destruct ((angle <? 0) || (359 <? angle)); [reflexivity|].
  destruct (intense <? 0)%Z; [reflexivity|].
  destruct (err <? 0)%Z; [reflexivity|].
  destruct prev as [p|].
  - destruct (angle <=? p); [reflexivity|].
    now rewrite AddMeasurement.good_units.
  - now rewrite AddMeasurement.good_units.
Qed.

Lemma loop_cons (line : string) (lines : list string) (prev : option float)
    (s : Scan) :
  from_string_loop py (line :: lines) prev s =
  match from_string_body py line prev s with
  | (Ok prev', s') => from_string_loop py lines prev' s'
  | (Raise e, s') => (Raise e, s')
  end.
Proof. reflexivity. Qed.

(** The loop over lines that all pass, then over more lines. *)
Lemma loop_app_Ok (pre : list string) (prev : option float) (s : Scan) :
  fst (from_string_loop py pre prev s) = Ok tt ->
  exists prev' s',
    forall rest,
      from_string_loop py (pre ++ rest) prev s =
      from_string_loop py rest prev' s'.
Proof.
  revert prev s. induction pre as [|line pre IH]; intros prev s H.
  - exists prev, s. reflexivity.
  - rewrite loop_cons in H.
    destruct (from_string_body py line prev s) as [[p1|e] s1] eqn:Hb;
      [|discriminate].
    destruct (IH p1 s1 H) as (prev' & s' & Hrest).
    exists prev', s'. intros rest.
    rewrite <- app_comm_cons, loop_cons, Hb. apply Hrest.
Qed.

(** The loop of [from_file]: the scans of the strings that parse. *)
Lemma from_file_loop (strings : list string) (acc : list Scan) :
  fold_left (from_file_body py) strings acc =
  acc ++ flat_map (fun str => match from_string py str with
                              | Ok scan => [scan]
                              | Raise _ => []
                              end) strings.
Proof.
  revert acc. induction strings as [|str strings IH]; intros acc; cbn.
  - now rewrite app_nil_r.
  - rewrite IH. unfold from_file_body.
    destruct (from_string py str); cbn; [now rewrite <- app_assoc|reflexivity].
Qed.

(** C9: when the lines before it have passed, a line that does not split
    into four fields at the commas makes [from_string] raise the
    [ValueError] of a malformed record; and a line of four fields that
    convert to numbers, with a distance below 0, an angle below 0 or above
    359, an intensity below 0 or an error code below 0, makes it raise a
    [ValueError] of an invalid value. *)
Theorem from_string_rejects (scan_string : string) (pre : list string)
    (line : string) (post : list string) :
  split scan_string = pre ++ line :: post ->
  fst (from_string_loop py pre None Scan_init) = Ok tt ->
  (List.length (split_at "," line) <> 4%nat ->
   from_string py scan_string = Raise (ValueError (could_not_be_parsed line)) /\
   kind (ValueError (could_not_be_parsed line)) = MalformedRecord) /\
  (forall (f0 f1 f2 f3 : string) (angle distance : float) (intense err : Z),
     split_at "," line = [f0; f1; f2; f3] ->
     py_float py f0 = Some angle -> py_float py f1 = Some distance ->
     py_int py f2 = Some intense -> py_int py f3 = Some err ->
     (distance <? 0) = true \/ (angle <? 0) = true \/
     (359 <? angle) = true \/ (intense < 0)%Z \/ (err < 0)%Z ->
     exists e, from_string py scan_string = Raise e /\ kind e = InvalidValue).
Proof.
  intros Hsplit Hpre.
  destruct (loop_app_Ok pre None Scan_init Hpre) as (prev' & s' & Hrest).
  unfold from_string. rewrite Hsplit, Hrest, loop_cons, body_cases.
  split.
  - intros Hlen.
    destruct (split_at "," line) as [|f0 [|f1 [|f2 [|f3 [|f4 l]]]]];
      try (split; reflexivity).
    now contradiction Hlen.
  - intros f0 f1 f2 f3 angle distance intense err -> -> -> -> -> Hbad.
    cbv zeta.
    destruct (distance <? 0) eqn:Hd; [eexists; split; reflexivity|].
    destruct (angle <? 0) eqn:Ha0; [eexists; split; reflexivity|].
    destruct (359 <? angle) eqn:Ha1; [eexists; split; reflexivity|].
    cbn [orb].
    destruct (Z.ltb_spec intense 0); [eexists; split; reflexivity|].
    destruct (Z.ltb_spec err 0); [eexists; split; reflexivity|].
    destruct Hbad as [H'|[H'|[H'|[H'|H']]]]; try discriminate; lia.
Qed.

(** C10: when the lines before it have passed, a line of four fields of
    which one is no literal of a number makes [from_string] raise the
    [ValueError] of the conversion of that field, which is none of the
    four kinds of error of the parser, whatever the other fields hold; and
    [from_file] drops a string on which [from_string] raises so. *)
Theorem from_string_bad_literal (scan_string : string) (pre : list string)
    (line : string) (post : list string) (f0 f1 f2 f3 : string) :
  split scan_string = pre ++ line :: post ->
  fst (from_string_loop py pre None Scan_init) = Ok tt ->
  split_at "," line = [f0; f1; f2; f3] ->
  py_float py f0 = None \/ py_float py f1 = None \/
  py_int py f2 = None \/ py_int py f3 = None ->
  (exists f,
     In f [f0; f1; f2; f3] /\
     from_string py scan_string = Raise (ValueError (could_not_convert f)) /\
     kind (ValueError (could_not_convert f)) = Unclassified) /\
  forall (scan_file : list string) (before after : list string),
    file_to_strings scan_file = before ++ scan_string :: after ->
    from_file py scan_file =
    fold_left (from_file_body py) (before ++ after) [].
Proof.
  intros Hsplit Hpre Hfields Hbad.
  destruct (loop_app_Ok pre None Scan_init Hpre) as (prev' & s' & Hrest).
  assert (Hraise : exists f,
             In f [f0; f1; f2; f3] /\
             from_string py scan_string =
             Raise (ValueError (could_not_convert f))).
  { unfold from_string. rewrite Hsplit, Hrest, loop_cons, body_cases, Hfields.
    destruct (py_float py f0) as [angle|];
      [|exists f0; split; [cbn; auto|reflexivity]].
    destruct (py_float py f1) as [distance|];
      [|exists f1; split; [cbn; auto|reflexivity]].
    destruct (py_int py f2) as [intense|];
      [|exists f2; split; [cbn; auto|reflexivity]].
    destruct (py_int py f3) as [err|];
      [|exists f3; split; [cbn; auto|reflexivity]].
    destruct Hbad as [H'|[H'|[H'|H']]]; discriminate. }
  destruct Hraise as (f & Hin & Hf). split.
  - exists f. repeat split; assumption.
  - intros scan_file before after Hfile. unfold from_file.
    rewrite Hfile, !from_file_loop, !flat_map_app. cbn [flat_map].
    now rewrite Hf.
Qed.

End Parser.

Lemma from_string_rejects_witness :
  from_string decimal_builtins "0,100,5,0 1,150,6" =
    Raise (ValueError (could_not_be_parsed "1,150,6")) /\
  exists e,
    from_string decimal_builtins "0,100,5,0 1,-150,6,0" = Raise e /\
    kind e = InvalidValue.
Proof.
  split.
  - exact (proj1 (proj1 (@from_string_rejects decimal_builtins
                           "0,100,5,0 1,150,6" ["0,100,5,0"%string]
                           "1,150,6" [] eq_refl eq_refl)
                        ltac:(discriminate))).
  - exact (proj2 (@from_string_rejects decimal_builtins
                    "0,100,5,0 1,-150,6,0" ["0,100,5,0"%string]
                    "1,-150,6,0" [] eq_refl eq_refl)
                 "1"%string "-150"%string "6"%string "0"%string
                 1 (-150) 6%Z 0%Z eq_refl eq_refl eq_refl eq_refl eq_refl
                 (or_introl eq_refl)).
Defined.

Lemma from_string_bad_literal_witness :
  from_string decimal_builtins "abc,100,5,0" =
    Raise (ValueError (could_not_convert "abc")) /\
  from_file decimal_builtins
    [ln "AngleInDegrees"; ln "abc,100,5,0"; ln "ROTATION_SPEED,5.0";
     ln "AngleInDegrees"; ln "0,100,5,0"; ln "ROTATION_SPEED,5.0"] =
  fold_left (from_file_body decimal_builtins) [ln "0,100,5,0"] [].
Proof.
  destruct (@from_string_bad_literal decimal_builtins
              (ln "abc,100,5,0") [] "abc,100,5,0" []
              "abc" "100" "5" "0" eq_refl eq_refl eq_refl
              (or_introl eq_refl)) as (_ & Hfile).
  split.
  - reflexivity.
  - exact (Hfile [ln "AngleInDegrees"; ln "abc,100,5,0";
                  ln "ROTATION_SPEED,5.0";
                  ln "AngleInDegrees"; ln "0,100,5,0";
                  ln "ROTATION_SPEED,5.0"]
                 [] [ln "0,100,5,0"] eq_refl).
Defined.

(** C2, as the code has it: the angle of a line is compared with the angle
    of the first line of the string, which [prev_angle] keeps, and not
    with the angle of the line before.  The angles 0, 5, 3 are accepted,
    although 3 is not greater than 5; the angles 1, 0 raise. *)
Theorem from_string_keeps_first_angle :
  from_string decimal_builtins "0,100,5,0 5,100,5,0 3,100,5,0" =
  Ok (mkScan [100 / 1000; 100 / 1000; 100 / 1000]
             [0 * Np.pi / 180; 5 * Np.pi / 180; 3 * Np.pi / 180]
             [5%Z; 5%Z; 5%Z] [0%Z; 0%Z; 0%Z] true 5) /\
  from_string decimal_builtins "1,100,5,0 0,150,6,0" =
  Raise (ValueError (was_not_an_increase 0 1)).
Proof. split; vm_compute; reflexivity. Qed.

End FromString.

Module ScanExtras.

Import Lds Client ScanFacts.
Open Scope float_scope.

(** X1: [add_measurement] returns exactly when both units are acceptable,
    whatever the numbers are, and then each of the four arrays has one
    element more. *)
Theorem add_measurement_returns_iff (d a : float) (i e : Z) (lu au : string)
    (s : Scan) :
  let r := add_measurement d a i e lu au s in
  (fst r = Ok tt <->
   str_in lu ["meters"; "millimeters"]%string = true /\
   str_in au ["degrees"; "radians"]%string = true) /\
  (fst r = Ok tt ->
   List.length (_distances (snd r)) = S (List.length (_distances s)) /\
   List.length (_angles (snd r)) = S (List.length (_angles s)) /\
   List.length (_intensities (snd r)) = S (List.length (_intensities s)) /\
   List.length (_error_codes (snd r)) = S (List.length (_error_codes s))).
Proof.
  cbv zeta.
  destruct (AddMeasurement.units_cases lu au)
    as [Hlu | [[Hlu Hau] | [Hlu Hau]]].
  - rewrite AddMeasurement.bad_linear_unit by assumption. cbn [fst snd].
    split; [split|]; [discriminate | intros [H _]; congruence | discriminate].
  - rewrite AddMeasurement.bad_angular_unit by assumption. cbn [fst snd].
    split; [split|]; [discriminate | intros [_ H]; congruence | discriminate].
  - rewrite AddMeasurement.good_units by assumption. cbn [fst snd].
    split; [split; auto|]. intros _. cbn. rewrite !length_app. cbn.
    repeat split; lia.
Qed.

(** The state an accessor leaves is the one its sort-if-dirty step
    leaves. *)
Lemma read_state (np : Np.numpy) (a : accessor) (s : Scan) :
  snd (read np a s) = snd (_sort_measurements np s).
Proof.
  pose proof (Memo.read_via_sort np a s) as H.
  destruct (_sort_measurements np s) as [[[]|e] s'] eqn:Hs.
  - rewrite H. cbn [snd].
    apply (Memo.read_clean np a s' (Memo.sort_Ok_clean np s Hs)).
  - now rewrite H.
Qed.

Lemma take_Forall {A : Type} (P : A -> Prop) (arr : list A) (p : list nat)
    (vs : list A) :
  Forall P arr -> Np.take arr p = Ok vs -> Forall P vs.
Proof.
  intros Harr. revert vs. induction p as [|i p IH]; cbn; intros vs H.
  - inversion H. constructor.
  - destruct (nth_error arr i) as [v|] eqn:Ev; [|discriminate].
    destruct (Np.take arr p) as [vs'|]; [|discriminate].
    inversion H; subst. constructor.
    + rewrite Forall_forall in Harr. apply Harr.
      now apply nth_error_In with (n := i).
    + now apply IH.
Qed.

(** The sort-if-dirty step, whether it returns or raises, keeps the
    distances among those it found, and keeps the maximum. *)
Lemma sort_distances (np : Np.numpy) (P : float -> Prop) (s : Scan) :
  Forall P (_distances s) ->
  Forall P (_distances (snd (_sort_measurements np s))) /\
  _distance_max (snd (_sort_measurements np s)) = _distance_max s.
Proof.
  intros HP. destruct (_unsorted s) eqn:Hu.
  - unfold _sort_measurements, bind, get, lift, assign. rewrite Hu. cbn.
    destruct (Np.take (_distances s) _) as [vd|] eqn:Hd; cbn; [|now split].
    pose proof (@take_Forall _ P _ _ _ HP Hd) as Hvd.
    destruct (Np.take (_angles s) _); cbn; [|now split].
    destruct (Np.take (_intensities s) _); cbn; [|now split].
    destruct (Np.take (_error_codes s) _); cbn; now split.
  - rewrite sort_clean by assumption. now split.
Qed.

(** X2: no distance held by a [Scan] is greater than the 5.0 m maximum,
    after any sequence of calls and whatever [np.argsort] does; in
    particular no distance that the accessor [distances] returns is. *)
Theorem distances_never_above_maximum (np : Np.numpy) (calls : list call) :
  Forall (fun d => (5 <? d) = false) (_distances (run np calls)) /\
  forall v, fst (read np Distances (run np calls)) = Ok (Floats v) ->
            Forall (fun d => (5 <? d) = false) v.
Proof.
  assert (Hinv : forall calls,
             Forall (fun d => (5 <? d) = false) (_distances (run np calls)) /\
             _distance_max (run np calls) = 5).
  { clear calls. induction calls as [|c calls IH] using rev_ind.
    - split; [constructor|reflexivity].
    - unfold run in *. rewrite fold_left_app. cbn [fold_left].
      set (s := fold_left (exec np) calls Scan_init) in *.
      destruct IH as [Hd Hmax].
      destruct c as [d a i e lu au | a]; cbn [exec].
      + destruct (AddMeasurement.units_cases lu au)
          as [Hlu | [[Hlu Hau] | [Hlu Hau]]].
        * rewrite AddMeasurement.bad_linear_unit by assumption. now split.
        * rewrite AddMeasurement.bad_angular_unit by assumption. now split.
        * rewrite AddMeasurement.good_units by assumption.
          cbn [snd]. cbv zeta. cbn [_distances _distance_max].
          split; [|assumption]. rewrite Hmax.
          apply Forall_app. split; [assumption|].
          constructor; [|constructor].
          destruct (5 <? (if (lu =? "millimeters")%string then d / 1000
                          else d)) eqn:E; [reflexivity|exact E].
      + rewrite read_state.
        destruct (@sort_distances np _ s Hd) as [Hd' Hmax'].
        split; [exact Hd'|congruence]. }
  split; [apply Hinv|].
  intros v Hv.
  destruct (Hinv (calls ++ [Read Distances])) as [Hd _].
  unfold run in Hd. rewrite fold_left_app in Hd. cbn [fold_left exec] in Hd.
  fold (run np calls) in Hd.
  unfold read, distances, bind, get, ret in Hv, Hd.
  destruct (_sort_measurements np (run np calls)) as [[[]|e] s'];
    cbn in Hv, Hd; [|discriminate].
  now inversion Hv; subst.
Qed.

(** X3: when an accessor has returned, a call of any accessor returns
    what it would have returned on the scan as it was before: the order
    in which the accessors are called does not matter. *)
Theorem accessors_in_any_order (np : Np.numpy) (a a' : accessor)
    (s s1 : Scan) (v : view) :
  read np a s = (Ok v, s1) ->
  read np a' s1 = read np a' s.
Proof.
  intros H.
  pose proof (Memo.read_via_sort np a s) as Ha.
  pose proof (Memo.read_via_sort np a' s) as Ha'.
  destruct (_sort_measurements np s) as [[[]|e] s'] eqn:Hs; [|congruence].
  pose proof (proj1 (Memo.read_clean np a s' (Memo.sort_Ok_clean np s Hs)))
    as Hstate.
  rewrite <- Ha, H in Hstate. cbn in Hstate. subst s1. now rewrite Ha'.
Qed.

End ScanExtras.

Module OrderExtras.

Import Lds Client ScanFacts.
Open Scope float_scope.

Lemma StronglySorted_unmap {A B : Type} (f : A -> B) (R : B -> B -> Prop)
    (l : list A) :
  StronglySorted R (map f l) -> StronglySorted (fun a b => R (f a) (f b)) l.
Proof.
  induction l as [|a l IH]; cbn; intros H; [constructor|].
  inversion H as [|? ? Hs Ha]; subst. constructor; [now apply IH|].
  rewrite Forall_forall in *. intros b Hb. apply Ha. now apply in_map.
Qed.

(** Two orderings of the same elements, one strict and one with no
    element before a smaller one, are the same list. *)
Lemma sorted_unique {A : Type} (R1 R2 : A -> A -> Prop) (l1 l2 : list A) :
  (forall a b, R1 a b -> R2 b a -> False) ->
  StronglySorted R1 l1 -> StronglySorted R2 l2 -> Permutation l1 l2 ->
  l1 = l2.
Proof.
  intros Hx H1. revert l2.
  induction H1 as [|a l1 Hs IH Ha]; intros l2 H2 Hp.
  - now apply Permutation_nil in Hp.
  - destruct l2 as [|b l2].
    + apply Permutation_sym, Permutation_nil in Hp. discriminate.
    + inversion H2 as [|? ? Hs2 Hb]; subst.
      assert (Hab : a = b).
      { assert (Hin_a : In a (b :: l2))
          by (apply (Permutation_in _ Hp); now left).
        assert (Hin_b : In b (a :: l1))
          by (apply (Permutation_in _ (Permutation_sym Hp)); now left).
        destruct Hin_b as [->|Hin_b]; [reflexivity|].
        destruct Hin_a as [->|Hin_a]; [reflexivity|].
        rewrite Forall_forall in Ha, Hb.
        exfalso. exact (Hx a b (Ha b Hin_b) (Hb a Hin_a)). }
      subst b. f_equal. apply IH; [assumption|].
      now apply Permutation_cons_inv with (a := a).
Qed.

(** On keys in strictly ascending order a sort has nothing to move. *)
Lemma argsort_ascending (f : list float -> list nat) (keys : list float) :
  Np.sorts f ->
  StronglySorted (fun a b => Np.lt a b = true) keys ->
  f keys = seq 0 (List.length keys).
Proof.
  intros Hf Hkeys. destruct (Hf keys) as [Hp Hs]. symmetry.
  apply sorted_unique
    with (R1 := fun i j => Np.lt (nth i keys nan) (nth j keys nan) = true)
         (R2 := fun i j => Np.le (nth i keys nan) (nth j keys nan) = true).
  - intros i j Hij Hji. unfold Np.le in Hji. rewrite Hij in Hji.
    discriminate.
  - apply StronglySorted_unmap with (f := fun i => nth i keys nan)
                                    (R := fun a b => Np.lt a b = true).
    now rewrite map_nth_seq.
  - now apply StronglySorted_unmap with (f := fun i => nth i keys nan)
                                        (R := fun a b => Np.le a b = true).
  - now apply Permutation_sym.
Qed.

(** X4: on a scan whose measurements were added by strictly ascending
    angle, the accessors show the four arrays in the order of insertion:
    the sort moves nothing, for any [np.argsort] that sorts. *)
Theorem accessors_keep_ascending_insertions (np : Np.numpy) (s : Scan)
    (a : accessor) :
  Np.sorts (Np.argsort np) ->
  aligned s ->
  StronglySorted (fun x y => Np.lt x y = true) (_angles s) ->
  read np a s = (Ok (shown np a s), set_unsorted false s).
Proof.
  intros Hnp Hal Hasc. pose proof Hal as (Hd & Hi & He).
  assert (Hsort : _sort_measurements np s = (Ok tt, set_unsorted false s)).
  { destruct (_unsorted s) eqn:Hu.
    - unfold set_unsorted. apply sort_dirty; [assumption|..];
        rewrite (argsort_ascending Hnp Hasc).
      + rewrite <- Hd. apply take_seq.
      + apply take_seq.
      + rewrite <- Hi. apply take_seq.
      + rewrite <- He. apply take_seq.
    - rewrite sort_clean by assumption. f_equal.
      destruct s; cbn in *; now subst. }
  rewrite (read_sorted np a s Hsort); [|reflexivity|exact Hal].
  reflexivity.
Qed.

Section Count.

Variable np : Np.numpy.
Hypothesis np_sorts : Np.sorts (Np.argsort np).

(** X5: after any sequence of calls the accessors return as many
    elements as calls of [add_measurement] have returned: [x] and [y]
    that many coordinates, and [points] the two rows [x] and [y]. *)
Theorem accessors_count_measurements (calls : list call) :
  let s := run np calls in
  let n := List.length (flat_map added calls) in
  exists (ds az xs ys : list float) (ins ers : list Z) (s' : Scan),
    read np Distances s = (Ok (Floats ds), s') /\
    read np Angles s = (Ok (Floats az), s') /\
    read np Intensities s = (Ok (Ints ins), s') /\
    read np ErrorCodes s = (Ok (Ints ers), s') /\
    read np X s = (Ok (Floats xs), s') /\
    read np Y s = (Ok (Floats ys), s') /\
    read np Points s = (Ok (Rows [xs; ys]), s') /\
    List.length ds = n /\ List.length az = n /\ List.length ins = n /\
    List.length ers = n /\ List.length xs = n /\ List.length ys = n.
Proof.
  intros s n.
  destruct (@ScanInvariant.run_invariant np np_sorts calls)
    as (Hal & Hmax & Hperm & Hclean).
  fold s in Hal, Hmax, Hperm, Hclean.
  destruct (@ScanInvariant.sorted_view np np_sorts s Hal Hclean)
    as (p & s' & Hp & Hd & Ha & Hi & He & Hs & Hal' & Hu & Hm & Hsort).
  assert (Hn : List.length (_angles s') = n).
  { rewrite <- (ScanInvariant.measurements_length Hal').
    unfold n. rewrite <- Hperm.
    apply Permutation_length.
    exact (@ScanInvariant.measurements_perm s s' p Hal Hp Hd Ha Hi He). }
  destruct Hal' as (Hd' & Hi' & He').
  exists (_distances s'), (_angles s'),
         (Np.zip_mul (_distances s') (map (Np.cos np) (_angles s'))),
         (Np.zip_mul (_distances s') (map (Np.sin np) (_angles s'))),
         (_intensities s'), (_error_codes s'), s'.
  rewrite !(fun a => read_sorted np a s Hsort Hu (conj Hd' (conj Hi' He'))).
  rewrite !zip_mul_length by now rewrite length_map.
  cbn [shown]. repeat split; congruence.
Qed.

End Count.

End OrderExtras.

Module ReadingFacts.

Import Lds ScanParser Readings.
Open Scope float_scope.

Lemma extended_nil (s : Scan) : _unsorted s = true -> extended s [] = s.
Proof.
  intros H. unfold extended. cbn. rewrite !app_nil_r.
  destruct s; cbn in *; now subst.
Qed.

Section Parser.

Variable py : builtins.

(** One iteration on a line that reads as [m] and passes the order
    check. *)
Lemma body_reads (line : string) (m : reading) (prev : option float)
    (s : Scan) :
  reads py line m -> in_order prev [angle m] ->
  from_string_body py line prev s =
  (Ok (prev_after prev [angle m]), extended s [m]).
Proof.
  intros (f0 & f1 & f2 & f3 & Hf & H0 & H1 & H2 & H3 & Hd & Ha0 & Ha1 & Hi & He)
         Hord.
  rewrite FromString.body_cases, Hf, H0, H1, H2, H3. cbv zeta.
  rewrite Hd, Ha0, Ha1. cbn [orb].
  destruct (Z.ltb_spec (intense m) 0); [lia|].
  destruct (Z.ltb_spec (err m) 0); [lia|].
  destruct prev as [p|]; cbn in Hord |- *.
  - inversion Hord as [|? ? Hp _]; subst. now rewrite Hp.
  - reflexivity.
Qed.

Lemma in_order_cons (prev : option float) (a : float) (angles : list float) :
  in_order prev (a :: angles) <->
  in_order prev [a] /\ in_order (prev_after prev [a]) angles.
Proof.
  destruct prev as [p|]; cbn.
  - split.
    + intros H. inversion H; subst. split; [repeat constructor|]; assumption.
    + intros [H1 H2]. inversion H1; subst. now constructor.
  - split; [intros H; split; [constructor|exact H] | intros [_ H]; exact H].
Qed.

Lemma prev_after_cons (prev : option float) (a : float) (angles : list float) :
  prev_after (prev_after prev [a]) angles = prev_after prev (a :: angles).
Proof. now destruct prev. Qed.

Lemma extended_cons (s : Scan) (m : reading) (ms : list reading) :
  extended (extended s [m]) ms = extended s (m :: ms).
Proof.
  unfold extended. cbn. now rewrite <- !app_assoc.
Qed.

(** The loop over lines that read as [ms] and pass the order check, then
    over more lines. *)
Lemma loop_reads (lines : list string) (ms : list reading)
    (prev : option float) (s : Scan) (rest : list string) :
  Forall2 (reads py) lines ms -> in_order prev (map angle ms) ->
  _unsorted s = true ->
  from_string_loop py (lines ++ rest) prev s =
  from_string_loop py rest (prev_after prev (map angle ms)) (extended s ms).
Proof.
  intros H. revert prev s.
  induction H as [|line m lines ms Hm Hms IH]; intros prev s Hord Hu.
  - cbn [app map]. rewrite extended_nil by assumption.
    now destruct prev.
  - cbn [map] in Hord. apply in_order_cons in Hord. destruct Hord as [H1 H2].
    rewrite <- app_comm_cons, FromString.loop_cons.
    rewrite (@body_reads line m prev s Hm H1).
    rewrite IH by (assumption || reflexivity).
    cbn [map]. now rewrite prev_after_cons, extended_cons.
Qed.

(** An iteration that returns has read its line. *)
Lemma body_Ok_reads (line : string) (prev prev' : option float)
    (s s' : Scan) :
  from_string_body py line prev s = (Ok prev', s') ->
  exists m, reads py line m /\ in_order prev [angle m].
Proof.
  rewrite FromString.body_cases.
  destruct (split_at "," line) as [|f0 [|f1 [|f2 [|f3 [|f4 l]]]]] eqn:Hf;
    try discriminate.
  destruct (py_float py f0) as [a|] eqn:H0; [|discriminate].
  destruct (py_float py f1) as [d|] eqn:H1; [|discriminate].
  destruct (py_int py f2) as [i|] eqn:H2; [|discriminate].
  destruct (py_int py f3) as [e|] eqn:H3; [|discriminate].
  cbv zeta.
  destruct (d <? 0) eqn:Hd; [discriminate|].
  destruct (a <? 0) eqn:Ha0; [discriminate|].
  destruct (359 <? a) eqn:Ha1; [discriminate|]. cbn [orb].
  destruct (Z.ltb_spec i 0); [discriminate|].
  destruct (Z.ltb_spec e 0); [discriminate|].
  intros Hok. exists (mkReading a d i e). split.
  - exists f0, f1, f2, f3. cbn. repeat split; assumption.
  - destruct prev as [p|]; cbn; [|constructor].
    destruct (a <=? p) eqn:Hp; [discriminate|]. repeat constructor.
    exact Hp.
Qed.

(** A loop that returns has read every line, in order. *)
Lemma loop_Ok_reads (lines : list string) (prev : option float) (s s' : Scan)
    (u : unit) :
  _unsorted s = true ->
  from_string_loop py lines prev s = (Ok u, s') ->
  exists ms,
    Forall2 (reads py) lines ms /\ in_order prev (map angle ms) /\
    s' = extended s ms.
Proof.
  revert prev s. induction lines as [|line lines IH]; intros prev s Hu H.
  - exists []. cbn in H. inversion H; subst.
    split; [constructor|]. split; [destruct prev; cbn; auto|].
    now rewrite extended_nil.
  - rewrite FromString.loop_cons in H.
    destruct (from_string_body py line prev s) as [[p1|e1] s1] eqn:Hb;
      [|discriminate].
    destruct (@body_Ok_reads _ _ _ _ _ Hb) as (m & Hm & Hord).
    rewrite (@body_reads line m prev s Hm Hord) in Hb. inversion Hb; subst p1 s1.
    destruct (IH (prev_after prev [angle m]) (extended s [m]) eq_refl H)
      as (ms & Hms & Hord' & ->).
    exists (m :: ms). split; [now constructor|]. split.
    + cbn [map]. apply in_order_cons. now split.
    + apply extended_cons.
Qed.

(** An iteration raises the exception of the first of its checks that
    fails, and only that. *)
Lemma body_Raise_iff (line : string) (prev : option float) (s : Scan)
    (e : exn) :
  fst (from_string_body py line prev s) = Raise e <->
  rejection py prev line = Some e.
Proof.
  rewrite FromString.body_cases. unfold rejection.
  destruct (split_at "," line) as [|f0 [|f1 [|f2 [|f3 [|f4 l]]]]];
    try (cbn [fst]; split; intros H; inversion H; reflexivity).
  destruct (py_float py f0) as [a|];
    [|cbn [fst]; split; intros H; inversion H; reflexivity].
  destruct (py_float py f1) as [d|];
    [|cbn [fst]; split; intros H; inversion H; reflexivity].
  destruct (py_int py f2) as [i|];
    [|cbn [fst]; split; intros H; inversion H; reflexivity].
  destruct (py_int py f3) as [c|];
    [|cbn [fst]; split; intros H; inversion H; reflexivity].
  cbv zeta.
  destruct (d <? 0);
    [cbn [fst]; split; intros H; inversion H; reflexivity|].
  destruct ((a <? 0) || (359 <? a));
    [cbn [fst]; split; intros H; inversion H; reflexivity|].
  destruct (i <? 0)%Z;
    [cbn [fst]; split; intros H; inversion H; reflexivity|].
  destruct (c <? 0)%Z;
    [cbn [fst]; split; intros H; inversion H; reflexivity|].
  destruct prev as [p|]; [destruct (a <=? p)|]; cbn [fst];
    split; intros H; try discriminate H; inversion H; reflexivity.
Qed.

(** A loop that raises: the lines before the one that raised have been
    read, in order, and that line fails one of the checks. *)
Lemma loop_Raise_reads (lines : list string) (prev : option float)
    (s s' : Scan) (e : exn) :
  _unsorted s = true ->
  from_string_loop py lines prev s = (Raise e, s') ->
  exists pre line post ms,
    lines = pre ++ line :: post /\
    Forall2 (reads py) pre ms /\ in_order prev (map angle ms) /\
    rejection py (prev_after prev (map angle ms)) line = Some e.
Proof.
  revert prev s. induction lines as [|l lines IH]; intros prev s Hu H.
  - discriminate.
  - rewrite FromString.loop_cons in H.
    destruct (from_string_body py l prev s) as [[p1|e1] s1] eqn:Hb.
    + destruct (@body_Ok_reads _ _ _ _ _ Hb) as (m & Hm & Hord).
      rewrite (@body_reads l m prev s Hm Hord) in Hb.
      inversion Hb; subst p1 s1.
      destruct (IH (prev_after prev [angle m]) (extended s [m]) eq_refl H)
        as (pre & line & post & ms & -> & Hms & Hord' & Hrej).
      exists (l :: pre), line, post, (m :: ms).
      split; [reflexivity|]. split; [now constructor|]. split.
      * cbn [map]. apply in_order_cons. now split.
      * cbn [map]. now rewrite <- prev_after_cons.
    + inversion H; subst e1 s1.
      exists [], l, lines, []. split; [reflexivity|].
      split; [constructor|]. split; [destruct prev; cbn; auto|].
      replace (prev_after prev (map angle [])) with prev
        by (now destruct prev).
      apply (body_Raise_iff l prev s e). now rewrite Hb.
Qed.

(** Lines that are read, in order, then a line that fails a check: the
    loop raises the exception of that check. *)
Lemma loop_rejected (pre : list string) (ms : list reading) (line : string)
    (post : list string) (prev : option float) (s : Scan) (e : exn) :
  Forall2 (reads py) pre ms -> in_order prev (map angle ms) ->
  _unsorted s = true ->
  rejection py (prev_after prev (map angle ms)) line = Some e ->
  fst (from_string_loop py (pre ++ line :: post) prev s) = Raise e.
Proof.
  intros Hms Hord Hu Hrej.
  rewrite (@loop_reads pre ms prev s (line :: post) Hms Hord Hu).
  rewrite FromString.loop_cons.
  apply (body_Raise_iff line (prev_after prev (map angle ms)) (extended s ms))
    in Hrej.
  destruct (from_string_body py line (prev_after prev (map angle ms))
                             (extended s ms)) as [[p1|e1] s1];
    cbn in Hrej |- *; [discriminate|now inversion Hrej].
Qed.

(** A new scan to which readings have been added holds them. *)
Lemma holds_extended (ms : list reading) : holds (extended Scan_init ms) ms.
Proof.
  unfold holds, extended. cbn.
  rewrite !length_map.
  split; [reflexivity|]. split; [reflexivity|]. split; [reflexivity|].
  split; [reflexivity|]. split; [|split; reflexivity].
  intros _. split; reflexivity.
Qed.

(** X6: [from_string] returns a scan exactly when every line of the
    string has four fields that convert to numbers on which no range check
    raises, and no angle after the first is less than or equal to the
    first angle (the first, not the one before); the scan then holds, line
    by line in the order of the string, the distance divided by 1000 (0
    when that is above 5.0) and the angle times pi/180, and it is dirty. *)
Theorem from_string_returns_iff (scan_string : string) :
  ((exists scan : Scan, from_string py scan_string = Ok scan) <->
   (exists ms : list reading,
      Forall2 (reads py) (split scan_string) ms /\
      in_order None (map angle ms))) /\
  (forall scan : Scan,
     from_string py scan_string = Ok scan ->
     exists ms : list reading,
       Forall2 (reads py) (split scan_string) ms /\
       in_order None (map angle ms) /\
       _distances scan = map (fun m => stored_distance 5 (distance m)) ms /\
       _angles scan = map (fun m => angle m * Np.pi / 180) ms /\
       _unsorted scan = true).
Proof.
  assert (Hfwd : forall scan : Scan,
            from_string py scan_string = Ok scan ->
            exists ms : list reading,
              Forall2 (reads py) (split scan_string) ms /\
              in_order None (map angle ms) /\ scan = extended Scan_init ms).
  { unfold from_string. intros scan.
    destruct (from_string_loop py (split scan_string) None Scan_init)
      as [[u|e] s'] eqn:Hl; [|discriminate].
    intros H. inversion H; subst.
    exact (@loop_Ok_reads _ None Scan_init _ _ eq_refl Hl). }
  split; [split|].
  - intros (scan & H). destruct (Hfwd scan H) as (ms & Hms & Hord & _).
    exists ms. now split.
  - intros (ms & Hms & Hord). exists (extended Scan_init ms).
    unfold from_string. rewrite <- (app_nil_r (split scan_string)).
    rewrite (@loop_reads _ ms None Scan_init [] Hms Hord eq_refl). reflexivity.
  - intros scan H. destruct (Hfwd scan H) as (ms & Hms & Hord & ->).
    exists ms. split; [assumption|]. split; [assumption|].
    split; [reflexivity|]. split; reflexivity.
Qed.

(** X7: when the lines before it have been read and have passed, a line
    that reads with an angle less than or equal to the angle of the first
    line of the string makes [from_string] raise the [ValueError] of the order, which
    names that first angle as the previous one. *)
Theorem from_string_out_of_order (scan_string : string) (pre : list string)
    (ms : list reading) (first : reading) (line : string) (m : reading)
    (post : list string) :
  split scan_string = pre ++ line :: post ->
  Forall2 (reads py) pre (first :: ms) ->
  in_order None (map angle (first :: ms)) ->
  reads py line m ->
  (angle m <=? angle first) = true ->
  from_string py scan_string =
  Raise (ValueError (was_not_an_increase (angle m) (angle first))).
Proof.
  intros Hsplit Hpre Hord
    (f0 & f1 & f2 & f3 & Hf & H0 & H1 & H2 & H3 & Hd & Ha0 & Ha1 & Hi & He)
    Hle.
  unfold from_string.
  rewrite Hsplit, (@loop_reads _ _ None Scan_init (line :: post) Hpre Hord eq_refl).
  rewrite FromString.loop_cons, FromString.body_cases, Hf, H0, H1, H2, H3.
  cbv zeta. rewrite Hd, Ha0, Ha1. cbn [orb].
  destruct (Z.ltb_spec (intense m) 0); [lia|].
  destruct (Z.ltb_spec (err m) 0); [lia|].
  cbn [prev_after map hd_error]. now rewrite Hle.
Qed.

End Parser.

End ReadingFacts.

Module FromStringContract.

Import Lds ScanParser Readings ReadingFacts.
Open Scope float_scope.

(** The scans of the strings that parse are no more than the strings. *)
Lemma parsed_at_most (py : builtins) (strings : list string) :
  (List.length (flat_map (fun str => match from_string py str with
                                     | Ok scan => [scan]
                                     | Raise _ => []
                                     end) strings)
   <= List.length strings)%nat.
Proof.
  induction strings as [|str strings IH]; cbn [flat_map]; [apply Nat.le_refl|].
  rewrite length_app. destruct (from_string py str); cbn [List.length]; lia.
Qed.

(** C8: [from_string] returns a scan exactly when every line of the string
    is read (four fields that convert to numbers on which no range check
    raises) and the angles pass the order check; the scan it returns holds
    one measurement for each line, in the order of the lines: the distance
    of the line divided by 1000 (0 when that is above 5.0), its angle times
    pi/180, and its intensity and error code (for integers that fit in 64
    bits).  Otherwise it raises, and returns no scan: the exception is
    that of the first check that fails on the first line that fails one,
    the lines before it having been read.  [from_file] returns, in the
    order of the file, the scans of the strings of [file_to_strings] on
    which [from_string] returns, and nothing for a string on which it
    raises, whatever the exception: a scan is in the result exactly when
    [from_string] returns it on one of the strings, and the scans are no
    more than the strings. *)
Theorem from_string_all_or_error (py : builtins) (scan_string : string) :
  (forall scan : Scan,
     from_string py scan_string = Ok scan ->
     exists ms : list reading,
       Forall2 (reads py) (split scan_string) ms /\
       in_order None (map angle ms) /\
       holds scan ms) /\
  (forall ms : list reading,
     Forall2 (reads py) (split scan_string) ms ->
     in_order None (map angle ms) ->
     exists scan : Scan,
       from_string py scan_string = Ok scan /\ holds scan ms) /\
  (forall e : exn,
     from_string py scan_string = Raise e <->
     exists (pre : list string) (line : string) (post : list string)
            (ms : list reading),
       split scan_string = pre ++ line :: post /\
       Forall2 (reads py) pre ms /\
       in_order None (map angle ms) /\
       rejection py (prev_after None (map angle ms)) line = Some e) /\
  (forall scan_file : list string,
     from_file py scan_file =
     flat_map (fun str => match from_string py str with
                          | Ok scan => [scan]
                          | Raise _ => []
                          end)
              (file_to_strings scan_file) /\
     (forall scan : Scan,
        In scan (from_file py scan_file) <->
        exists str : string,
          In str (file_to_strings scan_file) /\
          from_string py str = Ok scan) /\
     (List.length (from_file py scan_file) <=
      List.length (file_to_strings scan_file))%nat).
Proof.
  split; [|split; [|split]].
  - intros scan. unfold from_string.
    destruct (from_string_loop py (split scan_string) None Scan_init)
      as [[u|e] s'] eqn:Hl; [|discriminate].
    intros H. inversion H; subst.
    destruct (@loop_Ok_reads py _ None Scan_init _ _ eq_refl Hl)
      as (ms & Hms & Hord & ->).
    exists ms. split; [assumption|]. split; [assumption|].
    apply holds_extended.
  - intros ms Hms Hord. exists (extended Scan_init ms).
    split; [|apply holds_extended].
    unfold from_string. rewrite <- (app_nil_r (split scan_string)).
    rewrite (@loop_reads py _ ms None Scan_init [] Hms Hord eq_refl).
    reflexivity.
  - intros e. unfold from_string. split.
    + destruct (from_string_loop py (split scan_string) None Scan_init)
        as [[u|e1] s'] eqn:Hl; [discriminate|].
      intros H. inversion H; subst e1.
      exact (@loop_Raise_reads py _ None Scan_init _ _ eq_refl Hl).
    + intros (pre & line & post & ms & -> & Hms & Hord & Hrej).
      pose proof (@loop_rejected py pre ms line post None Scan_init e
                    Hms Hord eq_refl Hrej) as Hl.
      destruct (from_string_loop py (pre ++ line :: post) None Scan_init)
        as [[u|e1] s']; cbn [fst] in Hl; [discriminate|].
      now inversion Hl.
  - intros scan_file.
    assert (Hfile : from_file py scan_file =
                    flat_map (fun str => match from_string py str with
                                         | Ok scan => [scan]
                                         | Raise _ => []
                                         end)
                             (file_to_strings scan_file)).
    { unfold from_file. now rewrite FromString.from_file_loop. }
    split; [exact Hfile|]. split.
    + intros scan. rewrite Hfile, in_flat_map. split.
      * intros (str & Hin & Hscan). exists str. split; [assumption|].
        destruct (from_string py str) as [scan'|e]; cbn in Hscan.
        -- destruct Hscan as [->|[]]. reflexivity.
        -- destruct Hscan.
      * intros (str & Hin & Hok). exists str. split; [assumption|].
        rewrite Hok. now left.
    + rewrite Hfile. apply parsed_at_most.
Qed.

(** Two lines that are read: the scan holds both. *)
Example from_string_two_lines :
  from_string decimal_builtins "0,100,5,0 1,6000,6,0" =
  Ok (mkScan [0x1.999999999999ap-4; 0] [0; Np.pi / 180] [5; 6]%Z [0; 0]%Z
             true 5).
Proof. vm_compute. reflexivity. Qed.

(** The second line fails the check of the distance and the third does not
    have four fields: the exception is that of the second. *)
Example from_string_first_error :
  from_string decimal_builtins "0,100,5,0 1,-1,6,0 2" =
  Raise (ValueError (is_an_invalid_distance (-1))).
Proof. vm_compute. reflexivity. Qed.

End FromStringContract.

Module FileExtras.

Import Lds ScanParser Client FileToStrings.

(** X8: on every file, [file_to_strings] returns the lines of data of the
    completed scans of the file: the file is a sequence of completed scans
    followed by lines that complete none, and the result lists the joined
    data of each, in order. *)
Theorem file_to_strings_every_file (scan_file : list string) :
  exists (blocks : list block) (rest : list string),
    scan_file = flat_map block_lines blocks ++ rest /\
    forallb well_formed blocks = true /\ quiet rest = true /\
    file_to_strings scan_file = map (fun b => joined (data b)) blocks.
Proof.
  destruct (every_file_decomposes scan_file) as (blocks & rest & -> & Hb & Hr).
  exists blocks, rest. repeat split; try assumption.
  unfold file_to_strings.
  destruct (blocks_read blocks rest (mkLocals [] EmptyString false)
                        eq_refl Hb) as (l' & Hl' & Hsc & Hfold).
  rewrite Hfold, quiet_scans by assumption. exact Hsc.
Qed.

(** The scans found so far play no part in what the loop does next. *)
Lemma body_scans (l : locals) (line : string) :
  file_to_strings_body l line =
  let l0 := file_to_strings_body
              (mkLocals [] (scan_string l) (append_to_str l)) line in
  mkLocals (scans l ++ scans l0) (scan_string l0) (append_to_str l0).
Proof.
  destruct l as [sc buf flag].
  unfold file_to_strings_body. cbn [scans scan_string append_to_str].
  destruct (contains start_token line), (contains end_token line), flag;
    cbn; rewrite ?app_nil_r; reflexivity.
Qed.

Lemma fold_scans (lines : list string) (l : locals) :
  scans (fold_left file_to_strings_body lines l) =
  scans l ++
  scans (fold_left file_to_strings_body lines
                   (mkLocals [] (scan_string l) (append_to_str l))).
Proof.
  revert l. induction lines as [|line lines IH]; intros l; cbn [fold_left].
  - cbn. now rewrite app_nil_r.
  - rewrite IH. rewrite (IH (file_to_strings_body (mkLocals _ _ _) line)).
    rewrite (body_scans l line). cbv zeta.
    cbn [scans scan_string append_to_str]. now rewrite app_assoc.
Qed.

(** X9: a file can be cut before any line that holds the start token:
    [file_to_strings] of the whole is what it returns on the lines before
    the cut, followed by what it returns on the lines from the cut. *)
Theorem file_to_strings_cut_at_start (before : list string) (line : string)
    (after : list string) :
  starts line = true ->
  file_to_strings (before ++ line :: after) =
  file_to_strings before ++ file_to_strings (line :: after).
Proof.
  intros Hs. unfold file_to_strings.
  rewrite fold_left_app. cbn [fold_left].
  rewrite !(body_start _ line Hs), fold_scans. reflexivity.
Qed.

(** X10: a scan that is being recorded is discarded when another start
    token comes before an end token: the lines from the first start token
    up to the second leave no trace in the result. *)
Theorem file_to_strings_restart (before : list string) (line : string)
    (lost : list string) (line' : string) (after : list string) :
  starts line = true ->
  forallb (fun l => negb (closes l)) lost = true ->
  starts line' = true ->
  file_to_strings (before ++ line :: lost ++ line' :: after) =
  file_to_strings (before ++ line' :: after).
Proof.
  intros Hs Hlost Hs'. unfold file_to_strings.
  rewrite !fold_left_app. cbn [fold_left]. rewrite fold_left_app.
  cbn [fold_left]. rewrite !(body_start _ line' Hs').
  rewrite (@no_close_scans lost _ Hlost).
  now rewrite (body_start _ line Hs).
Qed.

Lemma body_count (l : locals) (line : string) :
  let l' := file_to_strings_body l line in
  (List.length (scans l') <=
   List.length (scans l) + (if closes line then 1 else 0))%nat /\
  (List.length (scans l') + (if append_to_str l' then 1 else 0) <=
   List.length (scans l) + (if append_to_str l then 1 else 0) +
   (if starts line then 1 else 0))%nat.
Proof.
  unfold file_to_strings_body, closes, starts.
  destruct (contains start_token line), (contains end_token line),
    (append_to_str l) eqn:E; cbn; rewrite ?length_app, ?E; cbn; lia.
Qed.

Lemma fold_count (lines : list string) (l : locals) :
  let l' := fold_left file_to_strings_body lines l in
  (List.length (scans l') <=
   List.length (scans l) + List.length (filter closes lines))%nat /\
  (List.length (scans l') + (if append_to_str l' then 1 else 0) <=
   List.length (scans l) + (if append_to_str l then 1 else 0) +
   List.length (filter starts lines))%nat.
Proof.
  revert l. induction lines as [|line lines IH]; intros l; cbn [fold_left].
  - cbn. lia.
  - specialize (IH (file_to_strings_body l line)).
    pose proof (body_count l line) as Hb. cbv zeta in *.
    cbn [filter]. destruct (closes line), (starts line); cbn [List.length];
      lia.
Qed.

(** X11: [file_to_strings] never returns more strings than the file has
    lines with the start token, nor more than it has lines with the end
    token and without the start token. *)
Theorem file_to_strings_at_most (scan_file : list string) :
  (List.length (file_to_strings scan_file) <=
   List.length (filter starts scan_file))%nat /\
  (List.length (file_to_strings scan_file) <=
   List.length (filter closes scan_file))%nat.
Proof.
  unfold file_to_strings.
  pose proof (fold_count scan_file (mkLocals [] EmptyString false)) as H.
  cbv zeta in H. cbn [scans append_to_str List.length] in H.
  destruct (append_to_str _); lia.
Qed.

Section Parser.

Variable py : builtins.

Lemma split_spaces (word s : string) :
  forallb isspace (list_ascii_of_string s) = true ->
  split_words word s =
  if (String.length word =? 0)%nat then [] else [word].
Proof.
  revert word. induction s as [|c s IH]; intros word; cbn; [reflexivity|].
  rewrite andb_true_iff. intros [Hc Hs]. rewrite Hc.
  destruct (String.length word =? 0)%nat; now rewrite IH.
Qed.

(** X12: on a string that holds white space only, the empty string
    included, [from_string] raises nothing and returns a new, empty
    scan. *)
Theorem from_string_blank (scan_string : string) :
  forallb isspace (list_ascii_of_string scan_string) = true ->
  from_string py scan_string = Ok Scan_init.
Proof.
  intros H. unfold from_string, split.
  now rewrite split_spaces.
Qed.

(** X13: [from_file] returns, for the completed scans of a file in their
    order, the scan of the joined lines of data of each one that
    [from_string] parses; a completed scan with no line of data, or with
    blank lines only, is kept as an empty scan. *)
Theorem from_file_blocks (blocks : list block) (rest : list string) :
  forallb well_formed blocks = true ->
  quiet rest = true ->
  from_file py (flat_map block_lines blocks ++ rest) =
  flat_map (fun b => match from_string py (joined (data b)) with
                     | Ok scan => [scan]
                     | Raise _ => []
                     end) blocks /\
  forall b, In b blocks ->
    forallb isspace (list_ascii_of_string (joined (data b))) = true ->
    In Scan_init (from_file py (flat_map block_lines blocks ++ rest)).
Proof.
  intros Hb Hr.
  assert (Hfile : from_file py (flat_map block_lines blocks ++ rest) =
                  flat_map (fun b => match from_string py (joined (data b)) with
                                     | Ok scan => [scan]
                                     | Raise _ => []
                                     end) blocks).
  { unfold from_file, file_to_strings.
    destruct (blocks_read blocks rest (mkLocals [] EmptyString false)
                          eq_refl Hb) as (l' & Hl' & Hsc & Hfold).
    rewrite Hfold, quiet_scans, Hsc by assumption.
    rewrite FromString.from_file_loop. cbn [scans app].
    now rewrite flat_map_concat_map, map_map, <- flat_map_concat_map. }
  split; [exact Hfile|].
  intros b Hin Hblank. rewrite Hfile. apply in_flat_map.
  exists b. split; [assumption|].
  unfold from_string, split. rewrite split_spaces by assumption.
  now left.
Qed.

(** X14: [from_file] never returns more scans than [file_to_strings]
    returns strings, and returns as many when [from_string] parses them
    all. *)
Theorem from_file_at_most (scan_file : list string) :
  (List.length (from_file py scan_file) <=
   List.length (file_to_strings scan_file))%nat /\
  (Forall (fun str => exists scan, from_string py str = Ok scan)
          (file_to_strings scan_file) ->
   List.length (from_file py scan_file) =
   List.length (file_to_strings scan_file)).
Proof.
  unfold from_file. rewrite FromString.from_file_loop. cbn [app].
  induction (file_to_strings scan_file) as [|str strings [IH1 IH2]]; cbn.
  - split; [lia|reflexivity].
  - rewrite length_app. split.
    + destruct (from_string py str); cbn; lia.
    + intros H. inversion H as [|? ? [scan Hscan] Hrest]; subst.
      rewrite Hscan. cbn. f_equal. now apply IH2.
Qed.

Section Pipeline.

Variable np : Np.numpy.
Hypothesis np_sorts : Np.sorts (Np.argsort np).

(** X15: every scan that [from_file] returns can be read: each accessor
    returns, with the angles in ascending order and the measurements of
    the scan kept together. *)
Theorem from_file_scans_readable (scan_file : list string) (scan : Scan) :
  In scan (from_file py scan_file) ->
  exists s',
    (forall a, read np a scan = (Ok (shown np a s'), s')) /\
    StronglySorted (fun a b => Np.le a b = true) (_angles s') /\
    Permutation (measurements s') (measurements scan).
Proof.
  unfold from_file. rewrite FromString.from_file_loop. cbn [app].
  rewrite in_flat_map. intros (str & _ & Hin).
  assert (Hstr : from_string py str = Ok scan).
  { destruct (from_string py str) as [sc|e]; cbn in Hin; [|contradiction].
    destruct Hin as [->|[]]. reflexivity. }
  clear Hin. unfold from_string in Hstr.
  destruct (from_string_loop py (split str) None Scan_init)
    as [[u|e] s1] eqn:Hl; [|discriminate].
  inversion Hstr; subst s1.
  destruct (@ReadingFacts.loop_Ok_reads py _ None Scan_init _ _ eq_refl Hl)
    as (ms & _ & _ & Hscan).
  assert (Hal : aligned scan).
  { subst scan. unfold aligned, Readings.extended. cbn.
    rewrite !length_map. repeat split. }
  assert (Hdirty : _unsorted scan = false ->
                   StronglySorted (fun a b => Np.le a b = true) (_angles scan)).
  { subst scan. discriminate. }
  destruct (@ScanInvariant.sorted_view np np_sorts scan Hal Hdirty)
    as (p & s' & Hp & Hd & Ha & Hi & He & Hs & Hal' & Hu & Hm & Hsort).
  exists s'. split; [|split].
  - intros a. now apply ScanFacts.read_sorted.
  - exact Hs.
  - exact (@ScanInvariant.measurements_perm scan s' p Hal Hp Hd Ha Hi He).
Qed.

End Pipeline.

End Parser.

End FileExtras.

Module PlotFacts.

Import Lds ScanParser Client Plot.
Open Scope float_scope.

(** X16: [parse_scan_file] of [lds_tools.py] returns no string, whatever
    the file holds: its loop appends the marker lines to a buffer and
    never to the list it returns. *)
Theorem parse_scan_file_returns_nothing (scan_file : list string) :
  LdsTools.parse_scan_file scan_file = [].
Proof.
  unfold LdsTools.parse_scan_file.
  assert (H : forall l,
             LdsTools.scans
               (fold_left LdsTools.parse_scan_file_body scan_file l) =
             LdsTools.scans l).
  { induction scan_file as [|line lines IH]; intros l; cbn; [reflexivity|].
    rewrite IH. unfold LdsTools.parse_scan_file_body.
    now destruct (contains "AngleInDegrees" line). }
  now rewrite H.
Qed.

Lemma set_item_length {A : Type} (l : list A) (i : nat) (v : A) :
  List.length (set_item l i v) = List.length l.
Proof.
  revert i. induction l as [|w l IH]; intros [|i]; cbn; auto.
Qed.

Lemma get_item_in_range {A : Type} (l : list A) (i : Z) :
  (0 <= i < Z.of_nat (List.length l))%Z ->
  exists v, nth_error l (Z.to_nat i) = Some v /\
            get_item l i = Some (Z.to_nat i, v).
Proof.
  intros Hi. unfold get_item.
  destruct (Z.ltb_spec i 0); [lia|]. rewrite (proj2 (Z.ltb_ge i 0)) by lia.
  destruct (nth_error l (Z.to_nat i)) as [v|] eqn:E; [eauto|].
  apply nth_error_None in E. lia.
Qed.

Section Plotter.

Variable np : Np.numpy.

(** Drawing a scan changes neither the index nor the number of scans. *)
Lemma scatter_keeps (i : nat) (scan : Scan) (before after : list effect)
    (self : ScanPlotter) :
  _sdx (snd (fst (scatter np i scan before after self))) = _sdx self /\
  List.length (_scans (snd (fst (scatter np i scan before after self)))) =
  List.length (_scans self).
Proof.
  unfold scatter.
  destruct (x np scan) as [[xs|e] s1]; cbn; [|now rewrite set_item_length].
  destruct (y np s1) as [[ys|e] s2]; cbn; [|now rewrite set_item_length].
  destruct (intensities np s2) as [[cs|e] s3]; cbn;
    now rewrite set_item_length.
Qed.

Lemma replot_keeps (self : ScanPlotter) :
  _sdx (snd (fst (_replot np self))) = _sdx self /\
  List.length (_scans (snd (fst (_replot np self)))) =
  List.length (_scans self).
Proof.
  unfold _replot.
  destruct (_ && _)%bool; [|now split].
  destruct (get_item (_scans self) (_sdx self)) as [[i scan]|]; [|now split].
  apply scatter_keeps.
Qed.

(** The two assignments to the index in [_keyboard_control]. *)
Lemma keyboard_control_index_aux (key : string) (self : ScanPlotter) :
  _scans self <> [] ->
  exists self2,
    _keyboard_control np key self =
    (let '(r, self', drawn) := _replot np self2 in
     (r, self', Printed_index (_sdx self2) :: drawn)) /\
    _scans self2 = _scans self /\
    _sdx self2 =
      Z.max 0 (Z.min (moved key (_sdx self))
                     (Z.of_nat (List.length (_scans self)) - 1)) /\
    (0 <= _sdx self2 < Z.of_nat (List.length (_scans self)))%Z.
Proof.
  intros Hne.
  assert (Hlen : (0 < Z.of_nat (List.length (_scans self)))%Z).
  { destruct (_scans self); [contradiction|cbn; lia]. }
  unfold _keyboard_control, moved.
  set (self1 := if String.eqb key "d" then _ else _).
  assert (H1 : _scans self1 = _scans self /\
               _sdx self1 = (if String.eqb key "d" then _sdx self + 1
                             else if String.eqb key "a" then _sdx self - 1
                             else _sdx self)%Z).
  { unfold self1. destruct (String.eqb key "d"); [now split|].
    destruct (String.eqb key "a"); now split. }
  destruct H1 as [Hsc1 Hsdx1]. rewrite <- Hsdx1.
  set (self2 := if (_sdx self1 <? 0)%Z then _ else _).
  assert (H2 : _scans self2 = _scans self /\
               _sdx self2 =
               Z.max 0 (Z.min (_sdx self1)
                              (Z.of_nat (List.length (_scans self)) - 1))).
  { unfold self2. rewrite Hsc1.
    destruct (Z.ltb_spec (_sdx self1) 0); [cbn; split; [assumption|lia]|].
    destruct (Z.leb_spec (Z.of_nat (List.length (_scans self))) (_sdx self1));
      cbn; (split; [assumption|lia]). }
  destruct H2 as [Hsc2 Hsdx2].
  exists self2. split; [now destruct (_replot np self2) as [[r self'] drawn]|].
  repeat split; try assumption; lia.
Qed.

(** X17: with at least one scan, a key event leaves an index of a scan:
    ['d'] moves to the next scan, ['a'] to the previous one, any other key
    nowhere, and the index is kept from 0 to the number of scans less
    one, whatever it was before; the index is printed, and the plotter
    keeps the number of its scans. *)
Theorem keyboard_control_index (key : string) (self : ScanPlotter) :
  _scans self <> [] ->
  let r := _keyboard_control np key self in
  let self' := snd (fst r) in
  let last := (Z.of_nat (List.length (_scans self)) - 1)%Z in
  _sdx self' = Z.max 0 (Z.min (moved key (_sdx self)) last) /\
  (0 <= _sdx self' < Z.of_nat (List.length (_scans self')))%Z /\
  List.length (_scans self') = List.length (_scans self) /\
  hd_error (snd r) = Some (Printed_index (_sdx self')).
Proof.
  intros Hne. cbv zeta.
  destruct (keyboard_control_index_aux key self Hne)
    as (self2 & -> & Hsc2 & Hsdx2 & Hrange).
  destruct (replot_keeps self2) as [Hk1 Hk2].
  destruct (_replot np self2) as [[r self'] drawn]. cbn [fst snd] in *.
  rewrite Hk1, Hk2, Hsc2. repeat split; lia.
Qed.

Hypothesis np_sorts : Np.sorts (Np.argsort np).

(** The three accessors that the plotter calls, on a scan as the methods
    leave it. *)
Lemma plotted (scan : Scan) :
  kept scan ->
  exists s',
    x np scan = (Ok (xs_of np s'), s') /\
    y np s' = (Ok (ys_of np s'), s') /\
    intensities np s' = (Ok (_intensities s'), s') /\
    kept s' /\ _unsorted s' = false /\
    Permutation (measurements s') (measurements scan).
Proof.
  intros [Hal Hclean].
  destruct (@ScanInvariant.sorted_view np np_sorts scan Hal Hclean)
    as (p & s' & Hp & Hd & Ha & Hi & He & Hs & Hal' & Hu & Hm & Hsort).
  pose proof (ScanFacts.sort_clean np s' Hu) as Hsort'.
  exists s'.
  split; [exact (@ScanFacts.coordinate_sorted np (Np.cos np) scan s'
                   Hsort Hal')|].
  split; [exact (@ScanFacts.coordinate_sorted np (Np.sin np) s' s'
                   Hsort' Hal')|].
  split; [unfold intensities, bind, get, ret; now rewrite Hsort'|].
  split; [split; [exact Hal'|intros _; exact Hs]|].
  split; [exact Hu|].
  exact (@ScanInvariant.measurements_perm scan s' p Hal Hp Hd Ha Hi He).
Qed.

Lemma set_item_Forall {A : Type} (P : A -> Prop) (l : list A) (i : nat)
    (v : A) :
  Forall P l -> P v -> Forall P (set_item l i v).
Proof.
  intros Hl Hv. revert i.
  induction Hl as [|w l Hw Hl IH]; intros [|i]; cbn; constructor; auto.
Qed.

Lemma set_item_nth {A : Type} (l : list A) (i : nat) (v : A) :
  (i < List.length l)%nat -> nth_error (set_item l i v) i = Some v.
Proof.
  revert i. induction l as [|w l IH]; intros [|i]; cbn; intros H;
    try lia; [reflexivity|]. apply IH. lia.
Qed.

(** A key event on scans as the methods of [Scan] leave them. *)
Lemma key_event (key : string) (self : ScanPlotter) :
  _scans self <> [] ->
  Forall kept (_scans self) ->
  exists (self' : ScanPlotter) (scan' : Scan),
    _keyboard_control np key self =
    (Done tt, self',
     [Printed_index (_sdx self'); Axes_cleared;
      Scatter (xs_of np scan') (ys_of np scan') (_intensities scan');
      Limits_restored; Figure_shown]) /\
    _sdx self' =
      Z.max 0 (Z.min (moved key (_sdx self))
                     (Z.of_nat (List.length (_scans self)) - 1)) /\
    nth_error (_scans self') (Z.to_nat (_sdx self')) = Some scan' /\
    StronglySorted (fun a b => Np.le a b = true) (_angles scan') /\
    Forall kept (_scans self') /\
    List.length (_scans self') = List.length (_scans self).
Proof.
  intros Hne Hkept.
  destruct (keyboard_control_index_aux key self Hne)
    as (self2 & Hdef & Hsc2 & Hsdx2 & Hrange).
  rewrite Hdef. unfold _replot.
  rewrite Hsc2 in *.
  rewrite (proj2 (Z.leb_le 0 (_sdx self2))) by lia.
  rewrite (proj2 (Z.ltb_lt (_sdx self2) _)) by lia. cbn [andb].
  destruct (@get_item_in_range _ (_scans self) (_sdx self2) Hrange)
    as (scan & Hnth & Hget).
  rewrite Hget. unfold scatter.
  assert (Hscan : kept scan).
  { rewrite Forall_forall in Hkept. apply Hkept.
    now apply nth_error_In with (n := Z.to_nat (_sdx self2)). }
  destruct (plotted Hscan) as (s' & Hx & Hy & Hc & Hk' & Hu & Hperm).
  rewrite Hx, Hy, Hc.
  exists (set_scan (Z.to_nat (_sdx self2)) s' self2), s'.
  cbn [_sdx _scans set_scan app]. rewrite Hsc2.
  split; [reflexivity|]. split; [exact Hsdx2|].
  split; [apply set_item_nth; lia|].
  split; [destruct Hk' as [_ Hs]; now apply Hs|].
  split; [now apply set_item_Forall|apply set_item_length].
Qed.

(** X18: when the scans of the plotter are as the methods of [Scan]
    leave them, and there is at least one, a key event never fails: it
    prints the index it moved to, clears the axes and draws the scan at
    that index, with its points by ascending angle, and leaves the scans
    as the methods leave them. *)
Theorem keyboard_control_draws (key : string) (self : ScanPlotter) :
  _scans self <> [] ->
  Forall kept (_scans self) ->
  exists (self' : ScanPlotter) (scan' : Scan),
    _keyboard_control np key self =
    (Done tt, self',
     [Printed_index (_sdx self'); Axes_cleared;
      Scatter (xs_of np scan') (ys_of np scan') (_intensities scan');
      Limits_restored; Figure_shown]) /\
    _sdx self' =
      Z.max 0 (Z.min (moved key (_sdx self))
                     (Z.of_nat (List.length (_scans self)) - 1)) /\
    nth_error (_scans self') (Z.to_nat (_sdx self')) = Some scan' /\
    StronglySorted (fun a b => Np.le a b = true) (_angles scan') /\
    Forall kept (_scans self') /\
    List.length (_scans self') = List.length (_scans self).
Proof.
  intros Hne Hkept.
  destruct (key_event key self Hne Hkept) as (self' & scan' & Hdraw).
  exists self', scan'. exact Hdraw.
Qed.

(** X22: from the index of a scan, [k] presses of ['d'] never fail and
    lead to the scan [k] places further, or to the last scan when there
    are fewer left; [k] presses of ['a'] lead [k] places back, or to the
    first scan. *)
Theorem key_presses_saturate (k : nat) (self : ScanPlotter) :
  Forall kept (_scans self) ->
  (0 <= _sdx self < Z.of_nat (List.length (_scans self)))%Z ->
  (exists self' drawn,
     key_presses np (repeat "d"%string k) self = (Done tt, self', drawn) /\
     _sdx self' = Z.min (_sdx self + Z.of_nat k)
                        (Z.of_nat (List.length (_scans self)) - 1)) /\
  (exists self' drawn,
     key_presses np (repeat "a"%string k) self = (Done tt, self', drawn) /\
     _sdx self' = Z.max (_sdx self - Z.of_nat k) 0).
Proof.
  revert self. induction k as [|k IH]; intros self Hkept Hrange.
  - split; exists self, []; (split; [reflexivity|lia]).
  - assert (Hne : _scans self <> []).
    { destruct (_scans self); [cbn in Hrange; lia|discriminate]. }
    split.
    + destruct (key_event "d" self Hne Hkept)
        as (self1 & scan1 & Hdraw & Hsdx & _ & _ & Hkept1 & Hlen1).
      unfold moved in Hsdx. cbn [String.eqb Ascii.eqb Bool.eqb] in Hsdx.
      destruct (IH self1 Hkept1) as [(self' & drawn & Hrun & Hend) _];
        [rewrite Hlen1; lia|].
      cbn [repeat key_presses]. rewrite Hdraw, Hrun.
      eexists _, _. split; [reflexivity|]. rewrite Hend, Hlen1. lia.
    + destruct (key_event "a" self Hne Hkept)
        as (self1 & scan1 & Hdraw & Hsdx & _ & _ & Hkept1 & Hlen1).
      unfold moved in Hsdx. cbn [String.eqb Ascii.eqb Bool.eqb] in Hsdx.
      destruct (IH self1 Hkept1) as [_ (self' & drawn & Hrun & Hend)];
        [rewrite Hlen1; lia|].
      cbn [repeat key_presses]. rewrite Hdraw, Hrun.
      eexists _, _. split; [reflexivity|]. rewrite Hend. lia.
Qed.

End Plotter.

End PlotFacts.

Module PlotterInit.

Import Lds ScanParser Client Plot.
Open Scope float_scope.

Lemma ltb_spec' (a b : float) :
  (a <? b) = SFltb (Prim2SF a) (Prim2SF b).
Proof. apply FloatAxioms.ltb_spec. Qed.

Lemma ltb_irrefl (a : float) : (a <? a) = false.
Proof.
  rewrite ltb_spec'.
  destruct (Prim2SF a) as [s|s| |s m e]; unfold SFltb, SFcompare;
    try destruct s; try reflexivity;
    rewrite Z.compare_refl, Pos.compare_cont_refl; reflexivity.
Qed.

Lemma ltb_trans (a b c : float) :
  (a <? b) = true -> (b <? c) = true -> (a <? c) = true.
Proof.
  rewrite !ltb_spec'.
  destruct (Prim2SF a) as [sx|sx| |sx mx ex],
           (Prim2SF b) as [sy|sy| |sy my ey],
           (Prim2SF c) as [sz|sz| |sz mz ez];
    SortFacts.sf_unfold; try reflexivity; try discriminate;
    intros H1; try discriminate; intros H2; try discriminate;
    try reflexivity.
  all: SortFacts.order_cases.
Qed.

(** The item that the loop of [max()] ends with is one of the items and
    none is greater. *)
Lemma max_loop (items seen : list float) (m : float) :
  In m seen -> Forall (fun v => (m <? v) = false) seen ->
  let r := fold_left (fun maxitem item =>
                        if maxitem <? item then item else maxitem)
                     items m in
  In r (seen ++ items) /\ Forall (fun v => (r <? v) = false) (seen ++ items).
Proof.
  revert seen m. induction items as [|x items IH]; intros seen m Hin Hall.
  - cbn. rewrite app_nil_r. now split.
  - cbn [fold_left]. cbv zeta.
    replace (seen ++ x :: items) with ((seen ++ [x]) ++ items)
      by now rewrite <- app_assoc.
    destruct (m <? x) eqn:Hmx; apply IH.
    + apply in_or_app. right. now left.
    + apply Forall_app. split.
      * rewrite Forall_forall in *. intros v Hv.
        destruct (x <? v) eqn:Hxv; [|reflexivity].
        specialize (Hall v Hv).
        rewrite (ltb_trans Hmx Hxv) in Hall. discriminate.
      * constructor; [apply ltb_irrefl|constructor].
    + apply in_or_app. now left.
    + apply Forall_app. split; [assumption|].
      constructor; [assumption|constructor].
Qed.

Lemma min_loop (items seen : list float) (m : float) :
  In m seen -> Forall (fun v => (v <? m) = false) seen ->
  let r := fold_left (fun minitem item =>
                        if item <? minitem then item else minitem)
                     items m in
  In r (seen ++ items) /\ Forall (fun v => (v <? r) = false) (seen ++ items).
Proof.
  revert seen m. induction items as [|x items IH]; intros seen m Hin Hall.
  - cbn. rewrite app_nil_r. now split.
  - cbn [fold_left]. cbv zeta.
    replace (seen ++ x :: items) with ((seen ++ [x]) ++ items)
      by now rewrite <- app_assoc.
    destruct (x <? m) eqn:Hxm; apply IH.
    + apply in_or_app. right. now left.
    + apply Forall_app. split.
      * rewrite Forall_forall in *. intros v Hv.
        destruct (v <? x) eqn:Hvx; [|reflexivity].
        specialize (Hall v Hv).
        rewrite (ltb_trans Hvx Hxm) in Hall. discriminate.
      * constructor; [apply ltb_irrefl|constructor].
    + apply in_or_app. now left.
    + apply Forall_app. split; [assumption|].
      constructor; [assumption|constructor].
Qed.

Lemma py_max_bound (items : list float) (m : float) :
  py_max items = Done m ->
  In m items /\ Forall (fun v => (m <? v) = false) items.
Proof.
  destruct items as [|first items]; [discriminate|]. cbn.
  intros H. inversion H; subst.
  apply (@max_loop items [first] first); [now left|].
  constructor; [apply ltb_irrefl|constructor].
Qed.

Lemma py_min_bound (items : list float) (m : float) :
  py_min items = Done m ->
  In m items /\ Forall (fun v => (v <? m) = false) items.
Proof.
  destruct items as [|first items]; [discriminate|]. cbn.
  intros H. inversion H; subst.
  apply (@min_loop items [first] first); [now left|].
  constructor; [apply ltb_irrefl|constructor].
Qed.

(** X19: a plotter that [__init__] has built holds, as the extent of the
    points of all the scans, a greatest and a least coordinate that are
    coordinates of points and that no coordinate exceeds; the limits it
    sets on the axes are these extents widened by the margin, and its
    index is 0. *)
Theorem init_extents (np : Np.numpy) (scans : list Scan) (p : ScanPlotter)
    (created : list effect) :
  ScanPlotter_init np scans = (Done p, created) ->
  (In (_xmax p) (_xall p) /\ In (_xmin p) (_xall p) /\
   Forall (fun v => (_xmax p <? v) = false /\ (v <? _xmin p) = false)
          (_xall p)) /\
  (In (_ymax p) (_yall p) /\ In (_ymin p) (_yall p) /\
   Forall (fun v => (_ymax p <? v) = false /\ (v <? _ymin p) = false)
          (_yall p)) /\
  created =
    [Figure_created;
     Set_xlim (_xmin p - axis_margin) (_xmax p + axis_margin);
     Set_ylim (_ymin p - axis_margin) (_ymax p + axis_margin)] /\
  _sdx p = 0%Z.
Proof.
  unfold ScanPlotter_init.
  destruct (each (x np) scans) as [[xs|e] scans1]; [|discriminate].
  destruct (concatenate xs) as [xall|f]; [|discriminate].
  destruct (each (y np) scans1) as [[ys|e] scans2]; [|discriminate].
  destruct (concatenate ys) as [yall|f]; [|discriminate].
  destruct (py_max xall) as [xmax|f] eqn:Hxmax; [|discriminate].
  destruct (py_min xall) as [xmin|f] eqn:Hxmin; [|discriminate].
  destruct (py_max yall) as [ymax|f] eqn:Hymax; [|discriminate].
  destruct (py_min yall) as [ymin|f] eqn:Hymin; [|discriminate].
  intros H. inversion H; subst. cbn.
  destruct (@py_max_bound _ _ Hxmax) as [Hx1 Hx2].
  destruct (@py_min_bound _ _ Hxmin) as [Hx3 Hx4].
  destruct (@py_max_bound _ _ Hymax) as [Hy1 Hy2].
  destruct (@py_min_bound _ _ Hymin) as [Hy3 Hy4].
  rewrite Forall_forall in *.
  repeat split; auto; rewrite Forall_forall; intros v Hv; split; auto.
Qed.

End PlotterInit.

Module PlotterRuns.

Import Lds ScanParser Client Plot.
Open Scope float_scope.

Section Runs.

Variable np : Np.numpy.
Hypothesis np_sorts : Np.sorts (Np.argsort np).

Lemma xs_of_length (scan : Scan) :
  aligned scan -> List.length (xs_of np scan) = List.length (_angles scan).
Proof.
  intros (Hd & _). unfold xs_of.
  rewrite ScanFacts.zip_mul_length by now rewrite length_map.
  exact Hd.
Qed.

Lemma ys_of_length (scan : Scan) :
  aligned scan -> List.length (ys_of np scan) = List.length (_angles scan).
Proof.
  intros (Hd & _). unfold ys_of.
  rewrite ScanFacts.zip_mul_length by now rewrite length_map.
  exact Hd.
Qed.

(** A scan that is not dirty is drawn as it stands. *)
Lemma plotted_clean (scan : Scan) :
  aligned scan -> _unsorted scan = false ->
  x np scan = (Ok (xs_of np scan), scan) /\
  y np scan = (Ok (ys_of np scan), scan) /\
  intensities np scan = (Ok (_intensities scan), scan).
Proof.
  intros Hal Hu. pose proof (ScanFacts.sort_clean np scan Hu) as Hsort.
  split; [exact (@ScanFacts.coordinate_sorted np (Np.cos np) scan scan
                   Hsort Hal)|].
  split; [exact (@ScanFacts.coordinate_sorted np (Np.sin np) scan scan
                   Hsort Hal)|].
  unfold intensities, bind, get, ret. now rewrite Hsort.
Qed.

(** The two list comprehensions of [__init__] on scans as the methods
    leave them: every scan is sorted once, and none raises. *)
Lemma each_kept (scans : list Scan) :
  Forall kept scans ->
  exists scans1,
    each (x np) scans = (Ok (map (xs_of np) scans1), scans1) /\
    each (y np) scans1 = (Ok (map (ys_of np) scans1), scans1) /\
    Forall2 (fun scan scan1 =>
               kept scan1 /\ _unsorted scan1 = false /\
               Permutation (measurements scan1) (measurements scan))
            scans scans1.
Proof.
  induction 1 as [|scan scans Hscan Hscans (scans1 & Hx & Hy & Hall)].
  - exists []. repeat split. constructor.
  - destruct (@PlotFacts.plotted np np_sorts scan Hscan)
      as (s' & Hxs & Hys & _ & Hk' & Hu & Hperm).
    exists (s' :: scans1). cbn [each map]. rewrite Hxs, Hx, Hys, Hy.
    repeat split. constructor; [|assumption]. repeat split; try assumption;
      apply Hk'.
Qed.

Lemma concat_nil {A : Type} (ls : list (list A)) :
  List.concat ls = [] <-> Forall (fun l => l = []) ls.
Proof.
  induction ls as [|l ls IH]; cbn.
  - split; [constructor|reflexivity].
  - split.
    + intros H. apply app_eq_nil in H. destruct H as [-> H].
      constructor; [reflexivity|now apply IH].
    + intros H. inversion H; subst. cbn. now apply IH.
Qed.

Lemma no_angle_no_point (scan scan1 : Scan) :
  aligned scan -> aligned scan1 ->
  Permutation (measurements scan1) (measurements scan) ->
  (_angles scan = [] <-> xs_of np scan1 = []) /\
  (_angles scan = [] <-> ys_of np scan1 = []).
Proof.
  intros Hal Hal1 Hperm. apply Permutation_length in Hperm.
  rewrite !ScanInvariant.measurements_length in Hperm by assumption.
  pose proof (xs_of_length Hal1) as Hx. pose proof (ys_of_length Hal1) as Hy.
  rewrite <- !length_zero_iff_nil. lia.
Qed.

(** [__init__] on scans as the methods of [Scan] leave them. *)
Lemma init_cases (scans : list Scan) :
  Forall kept scans ->
  (scans = [] ->
   ScanPlotter_init np scans = (Failed NeedAtLeastOneArray, [])) /\
  (scans <> [] -> Forall (fun scan => _angles scan = []) scans ->
   ScanPlotter_init np scans = (Failed EmptySequence, [])) /\
  (Exists (fun scan => _angles scan <> []) scans ->
   exists p created,
     ScanPlotter_init np scans = (Done p, created) /\
     _sdx p = 0%Z /\
     Forall2 (fun scan scan1 =>
                kept scan1 /\ _unsorted scan1 = false /\
                Permutation (measurements scan1) (measurements scan))
             scans (_scans p)).
Proof.
  intros Hkept.
  destruct (each_kept Hkept) as (scans1 & Hx & Hy & Hall).
  split; [|split].
  - intros ->. reflexivity.
  - intros Hne Hnone. unfold ScanPlotter_init. rewrite Hx.
    assert (Hne1 : scans1 <> []).
    { intros ->. inversion Hall. subst. contradiction. }
    assert (Hnil : List.concat (map (xs_of np) scans1) = []).
    { apply concat_nil. apply Forall_map.
      clear Hx Hy Hne Hne1. induction Hall as [|s s1 l l1 (Hk1 & _ & Hp) _ IH];
        [constructor|].
      inversion Hkept; subst. inversion Hnone; subst.
      constructor; [|now apply IH].
      now apply (no_angle_no_point (scan := s) (scan1 := s1));
        [match goal with H : kept s |- _ => apply H end | apply Hk1 | ..]. }
    destruct scans1 as [|s1 scans1]; [contradiction|].
    cbn [map concatenate]. cbn [map] in Hnil. rewrite Hnil.
    rewrite Hy. cbn [map concatenate].
    destruct (List.concat _); reflexivity.
  - intros Hsome. unfold ScanPlotter_init. rewrite Hx.
    assert (Hpoint : List.concat (map (xs_of np) scans1) <> [] /\
                     List.concat (map (ys_of np) scans1) <> []).
    { clear Hx Hy. induction Hall as [|s s1 l l1 (Hk1 & _ & Hp) _ IH].
      - inversion Hsome.
      - inversion Hkept as [|? ? Hks Hkl]; subst. cbn [map List.concat].
        destruct (@no_angle_no_point s s1 (proj1 Hks) (proj1 Hk1) Hp)
          as [Hxs Hys].
        inversion Hsome as [? ? Hs|? ? Hl]; subst.
        + split; intros H; apply app_eq_nil in H; destruct H as [H _];
            apply Hs; [now apply Hxs|now apply Hys].
        + destruct (IH Hkl Hl) as [IHx IHy].
          split; intros H; apply app_eq_nil in H; destruct H as [_ H];
            contradiction. }
    destruct Hpoint as [Hxall Hyall].
    destruct scans1 as [|s1 scans1]; [cbn in Hxall; contradiction|].
    cbn [map concatenate]. rewrite Hy. cbn [map concatenate].
    cbn [map] in Hxall, Hyall.
    destruct (List.concat (xs_of np s1 :: map (xs_of np) scans1))
      as [|vx xall]; [contradiction|].
    destruct (List.concat (ys_of np s1 :: map (ys_of np) scans1))
      as [|vy yall]; [contradiction|].
    cbn [py_max py_min]. eexists _, _. split; [reflexivity|].
    cbn [_sdx _scans]. split; [reflexivity|exact Hall].
Qed.

(** X20: on scans as the methods of [Scan] leave them, [__init__] builds
    a plotter exactly when some scan holds a measurement.  On no scan at
    all it fails in [np.concatenate], and on scans that hold no
    measurement it fails in [max()]; otherwise the plotter holds the
    scans, each sorted, with the index 0. *)
Theorem init_outcome (scans : list Scan) :
  Forall kept scans ->
  (scans = [] ->
   ScanPlotter_init np scans = (Failed NeedAtLeastOneArray, [])) /\
  (scans <> [] -> Forall (fun scan => _angles scan = []) scans ->
   ScanPlotter_init np scans = (Failed EmptySequence, [])) /\
  (Exists (fun scan => _angles scan <> []) scans ->
   exists p created,
     ScanPlotter_init np scans = (Done p, created) /\
     _sdx p = 0%Z /\
     Forall2 (fun scan scan1 =>
                kept scan1 /\ _unsorted scan1 = false /\
                Permutation (measurements scan1) (measurements scan))
             scans (_scans p)).
Proof.
  intros Hkept. destruct (init_cases Hkept) as (Hnone & Hempty & Hsome).
  split; [exact Hnone|]. split; [exact Hempty|exact Hsome].
Qed.

Variable py : builtins.

(** The scans of [from_file] are as the methods of [Scan] leave them. *)
Lemma from_file_kept (scan_file : list string) :
  Forall kept (from_file py scan_file).
Proof.
  unfold from_file. rewrite FromString.from_file_loop. cbn [app].
  apply Forall_flat_map, Forall_forall. intros str _.
  unfold from_string.
  destruct (from_string_loop py (split str) None Scan_init)
    as [[u|e] scan] eqn:Hl; [|constructor].
  destruct (@ReadingFacts.loop_Ok_reads py _ None Scan_init _ _ eq_refl Hl)
    as (ms & _ & _ & ->).
  constructor; [|constructor]. split.
  - unfold aligned, Readings.extended. cbn. rewrite !length_map.
    repeat split.
  - discriminate.
Qed.

(** X21: [main] on a log file.  When [from_file] finds no scan it fails in
    [np.concatenate], after it has printed that it extracted 0 scans; when
    the scans it finds hold no measurement it fails in [max()]; and when
    some scan holds a measurement it builds the plotter, prints the help
    and the index 0, and draws the first scan with its points by ascending
    angle. *)
Theorem main_outcome (scan_file : list string) :
  let scans := from_file py scan_file in
  (scans = [] ->
   main np py scan_file =
   (Failed NeedAtLeastOneArray, [Printed_extracted 0])) /\
  (scans <> [] -> Forall (fun scan => _angles scan = []) scans ->
   main np py scan_file =
   (Failed EmptySequence, [Printed_extracted (List.length scans)])) /\
  (Exists (fun scan => _angles scan <> []) scans ->
   exists p created first rest scan1,
     scans = first :: rest /\
     ScanPlotter_init np scans = (Done p, created) /\
     main np py scan_file =
     (Done tt,
      [Printed_extracted (List.length scans)] ++ created ++
      [Printed_help_next; Printed_help_previous; Printed_index 0;
       Scatter (xs_of np scan1) (ys_of np scan1) (_intensities scan1);
       Plot_shown]) /\
     Permutation (measurements scan1) (measurements first) /\
     StronglySorted (fun a b => Np.le a b = true) (_angles scan1)).
Proof.
  cbv zeta. unfold main. generalize (from_file_kept scan_file).
  generalize (from_file py scan_file) as scans. intros scans Hkept.
  destruct (init_cases Hkept) as (Hnone & Hempty & Hsome).
  split; [|split].
  - intros H. rewrite (Hnone H), H. reflexivity.
  - intros Hne Hno. rewrite (Hempty Hne Hno). reflexivity.
  - intros Hex. destruct (Hsome Hex) as (p & created & Hinit & Hsdx & Hall).
    inversion Hall as [|first scan1 rest rest1 (Hk1 & Hu1 & Hp1) Hrest Hs Hps].
    + subst. inversion Hex.
    + exists p, created, first, rest, scan1.
      split; [reflexivity|]. rewrite Hs. split; [exact Hinit|].
      split; [|split; [exact Hp1|now apply Hk1]].
      rewrite Hinit. unfold show_scans. rewrite <- Hps, Hsdx.
      cbn [get_item List.length Z.ltb Z.of_nat Z.to_nat nth_error
           Z.compare].
      unfold scatter.
      destruct (plotted_clean (proj1 Hk1) Hu1) as (Hx & Hy & Hc).
      rewrite Hx, Hy, Hc. reflexivity.
Qed.

End Runs.

End PlotterRuns.
Module Examples.

Import Lds ScanParser Client Readings Plot.
Open Scope float_scope.

Lemma accessors_in_any_order_witness :
  let np := Np.insertion_numpy in
  let s := run np [AddMeasurement 2000 90 7 0 "millimeters" "degrees";
                   AddMeasurement 1000 10 8 1 "millimeters" "degrees"] in
  let s1 := snd (read np Angles s) in
  read np Distances s1 = read np Distances s.
Proof.
  intros np s s1.
  apply (@ScanExtras.accessors_in_any_order np Angles Distances s s1
           (Floats [10 * Np.pi / 180; Np.pi / 2])).
  vm_compute. reflexivity.
Defined.

Lemma accessors_keep_ascending_insertions_witness :
  let np := Np.insertion_numpy in
  let s := run np [AddMeasurement 1000 10 8 1 "millimeters" "degrees";
                   AddMeasurement 2000 90 7 0 "millimeters" "degrees"] in
  read np Distances s = (Ok (Floats [1; 2]), set_unsorted false s).
Proof.
  intros np s.
  apply (@OrderExtras.accessors_keep_ascending_insertions np s Distances).
  - exact SortFacts.insertion_argsort_sorts.
  - repeat split.
  - repeat constructor.
Defined.

Lemma accessors_count_measurements_witness :
  let np := Np.insertion_numpy in
  let calls := [AddMeasurement 2000 90 7 0 "millimeters" "degrees";
                AddMeasurement 1 0 0 0 "bogus" "degrees";
                Read Angles;
                AddMeasurement 1000 10 8 1 "millimeters" "degrees"] in
  let s := run np calls in
  exists (ds az xs ys : list float) (ins ers : list Z) (s' : Scan),
    read np Distances s = (Ok (Floats ds), s') /\
    read np Angles s = (Ok (Floats az), s') /\
    read np Intensities s = (Ok (Ints ins), s') /\
    read np ErrorCodes s = (Ok (Ints ers), s') /\
    read np X s = (Ok (Floats xs), s') /\
    read np Y s = (Ok (Floats ys), s') /\
    read np Points s = (Ok (Rows [xs; ys]), s') /\
    List.length ds = 2%nat /\ List.length az = 2%nat /\
    List.length ins = 2%nat /\ List.length ers = 2%nat /\
    List.length xs = 2%nat /\ List.length ys = 2%nat.
Proof.
  intros np calls s.
  exact (@OrderExtras.accessors_count_measurements np
           SortFacts.insertion_argsort_sorts calls).
Defined.

Lemma reads_decimal (f0 f1 f2 f3 : string) (m : reading) :
  decimal_float f0 = Some (angle m) -> decimal_float f1 = Some (distance m) ->
  decimal_int f2 = Some (intense m) -> decimal_int f3 = Some (err m) ->
  split_at "," (f0 ++ "," ++ f1 ++ "," ++ f2 ++ "," ++ f3) = [f0; f1; f2; f3] ->
  (distance m <? 0) = false -> (angle m <? 0) = false ->
  (359 <? angle m) = false ->
  (intense m <? 0)%Z = false -> (err m <? 0)%Z = false ->
  reads decimal_builtins (f0 ++ "," ++ f1 ++ "," ++ f2 ++ "," ++ f3) m.
Proof.
  intros H0 H1 H2 H3 Hs Hd Ha0 Ha1 Hi He.
  exists f0, f1, f2, f3. repeat split; try assumption.
  - now apply Z.ltb_ge.
  - now apply Z.ltb_ge.
Defined.

Lemma from_string_out_of_order_witness :
  from_string decimal_builtins "2,100,5,0 5,100,5,0 1,100,5,0" =
  Raise (ValueError (was_not_an_increase 1 2)).
Proof.
  apply (@ReadingFacts.from_string_out_of_order decimal_builtins
           "2,100,5,0 5,100,5,0 1,100,5,0"
           ["2,100,5,0"; "5,100,5,0"]%string
           [mkReading 5 100 5 0] (mkReading 2 100 5 0)
           "1,100,5,0" (mkReading 1 100 5 0) []).
  - reflexivity.
  - repeat constructor.
    + apply (@reads_decimal "2" "100" "5" "0" (mkReading 2 100 5 0));
        reflexivity.
    + apply (@reads_decimal "5" "100" "5" "0" (mkReading 5 100 5 0));
        reflexivity.
  - repeat constructor.
  - apply (@reads_decimal "1" "100" "5" "0" (mkReading 1 100 5 0));
      reflexivity.
  - reflexivity.
Defined.

Lemma file_to_strings_cut_at_start_witness :
  file_to_strings
    [ln "AngleInDegrees"; ln "0,100,5,0"; ln "ROTATION_SPEED,4.98";
     ln "AngleInDegrees"; ln "0,200,7,0"; ln "ROTATION_SPEED,5.01"] =
  (file_to_strings
     [ln "AngleInDegrees"; ln "0,100,5,0"; ln "ROTATION_SPEED,4.98"] ++
   file_to_strings
     [ln "AngleInDegrees"; ln "0,200,7,0"; ln "ROTATION_SPEED,5.01"])%list.
Proof.
  exact (@FileExtras.file_to_strings_cut_at_start
           [ln "AngleInDegrees"; ln "0,100,5,0"; ln "ROTATION_SPEED,4.98"]
           (ln "AngleInDegrees")
           [ln "0,200,7,0"; ln "ROTATION_SPEED,5.01"] eq_refl).
Defined.

Lemma file_to_strings_restart_witness :
  file_to_strings
    [ln "AngleInDegrees"; ln "0,100,5,0"; ln "1,150,6,0";
     ln "AngleInDegrees"; ln "0,200,7,0"; ln "ROTATION_SPEED,5.01"] =
  file_to_strings
    [ln "AngleInDegrees"; ln "0,200,7,0"; ln "ROTATION_SPEED,5.01"].
Proof.
  exact (@FileExtras.file_to_strings_restart
           [] (ln "AngleInDegrees") [ln "0,100,5,0"; ln "1,150,6,0"]
           (ln "AngleInDegrees")
           [ln "0,200,7,0"; ln "ROTATION_SPEED,5.01"]
           eq_refl eq_refl eq_refl).
Defined.

Lemma from_string_blank_witness :
  from_string decimal_builtins (ln "  ") = Ok Scan_init.
Proof.
  exact (@FileExtras.from_string_blank decimal_builtins (ln "  ") eq_refl).
Defined.

Lemma from_file_blocks_witness :
  from_file decimal_builtins
    [ln "AngleInDegrees"; ln "ROTATION_SPEED,5.01";
     ln "AngleInDegrees"; ln "0,200,7,0"; ln "ROTATION_SPEED,5.01"] =
  [Scan_init; mkScan [200 / 1000] [0 * Np.pi / 180] [7%Z] [0%Z] true 5].
Proof.
  exact (proj1 (@FileExtras.from_file_blocks decimal_builtins
                  [mkBlock [] (ln "AngleInDegrees") []
                           (ln "ROTATION_SPEED,5.01");
                   mkBlock [] (ln "AngleInDegrees") [ln "0,200,7,0"]
                           (ln "ROTATION_SPEED,5.01")]
                  [] eq_refl eq_refl)).
Defined.

Lemma from_file_scans_readable_witness :
  let np := Np.insertion_numpy in
  let scan := mkScan [200 / 1000] [0 * Np.pi / 180] [7%Z] [0%Z] true 5 in
  exists s',
    (forall a, read np a scan = (Ok (shown np a s'), s')) /\
    StronglySorted (fun a b => Np.le a b = true) (_angles s') /\
    Permutation (measurements s') (measurements scan).
Proof.
  intros np scan.
  apply (@FileExtras.from_file_scans_readable decimal_builtins np
           SortFacts.insertion_argsort_sorts
           [ln "AngleInDegrees"; ln "0,200,7,0"; ln "ROTATION_SPEED,5.01"]
           scan).
  left. reflexivity.
Defined.

(** Two scans of one point each, at the angle 0, and a plotter of them. *)
Lemma keyboard_control_index_witness :
  let near := mkScan [1] [0] [7%Z] [0%Z] false 5 in
  let far := mkScan [2] [0] [9%Z] [0%Z] false 5 in
  let self := mkScanPlotter [near; far] [1; 2] [0; 0] 2 1 0 0 0 in
  let r := _keyboard_control numpy_at_zero "d" self in
  _sdx (snd (fst r)) = 1%Z /\
  (0 <= _sdx (snd (fst r)) < 2)%Z /\
  List.length (_scans (snd (fst r))) = 2%nat /\
  hd_error (snd r) = Some (Printed_index (_sdx (snd (fst r)))).
Proof.
  intros near far self.
  apply (@PlotFacts.keyboard_control_index numpy_at_zero "d" self).
  discriminate.
Defined.

Lemma kept_point (d a : float) (i e : Z) (dirty : bool) :
  kept (mkScan [d] [a] [i] [e] dirty 5).
Proof.
  split; [repeat split|]. intros _. repeat constructor.
Defined.

Lemma keyboard_control_draws_witness :
  let near := mkScan [1] [0] [7%Z] [0%Z] true 5 in
  let far := mkScan [2] [0] [9%Z] [0%Z] true 5 in
  let self := mkScanPlotter [near; far] [1; 2] [0; 0] 2 1 0 0 0 in
  exists (self' : ScanPlotter) (scan' : Scan),
    _keyboard_control numpy_at_zero "d" self =
    (Done tt, self',
     [Printed_index (_sdx self'); Axes_cleared;
      Scatter (xs_of numpy_at_zero scan') (ys_of numpy_at_zero scan')
              (_intensities scan');
      Limits_restored; Figure_shown]) /\
    _sdx self' = 1%Z /\
    nth_error (_scans self') (Z.to_nat (_sdx self')) = Some scan' /\
    StronglySorted (fun a b => Np.le a b = true) (_angles scan') /\
    Forall kept (_scans self') /\
    List.length (_scans self') = 2%nat.
Proof.
  intros near far self.
  apply (@PlotFacts.keyboard_control_draws numpy_at_zero
           SortFacts.insertion_argsort_sorts "d" self).
  - discriminate.
  - repeat constructor; apply kept_point.
Defined.

Lemma key_presses_saturate_witness :
  let near := mkScan [1] [0] [7%Z] [0%Z] true 5 in
  let far := mkScan [2] [0] [9%Z] [0%Z] true 5 in
  let self := mkScanPlotter [near; far] [1; 2] [0; 0] 2 1 0 0 0 in
  (exists self' drawn,
     key_presses numpy_at_zero ["d"; "d"; "d"]%string self =
     (Done tt, self', drawn) /\ _sdx self' = 1%Z) /\
  (exists self' drawn,
     key_presses numpy_at_zero ["a"; "a"; "a"]%string self =
     (Done tt, self', drawn) /\ _sdx self' = 0%Z).
Proof.
  intros near far self.
  apply (@PlotFacts.key_presses_saturate numpy_at_zero
           SortFacts.insertion_argsort_sorts 3 self).
  - repeat constructor; apply kept_point.
  - cbn. lia.
Defined.

Lemma init_extents_witness :
  let p := mkScanPlotter [mkScan [1] [0] [7%Z] [0%Z] false 5;
                          mkScan [2] [0] [9%Z] [0%Z] false 5]
                         [1; 2] [0; 0] 2 1 0 0 0 in
  (In (_xmax p) (_xall p) /\ In (_xmin p) (_xall p) /\
   Forall (fun v => (_xmax p <? v) = false /\ (v <? _xmin p) = false)
          (_xall p)) /\
  (In (_ymax p) (_yall p) /\ In (_ymin p) (_yall p) /\
   Forall (fun v => (_ymax p <? v) = false /\ (v <? _ymin p) = false)
          (_yall p)) /\
  [Figure_created; Set_xlim (1 - axis_margin) (2 + axis_margin);
   Set_ylim (0 - axis_margin) (0 + axis_margin)] =
    [Figure_created;
     Set_xlim (_xmin p - axis_margin) (_xmax p + axis_margin);
     Set_ylim (_ymin p - axis_margin) (_ymax p + axis_margin)] /\
  _sdx p = 0%Z.
Proof.
  intros p.
  apply (@PlotterInit.init_extents numpy_at_zero
           [mkScan [1] [0] [7%Z] [0%Z] true 5;
            mkScan [2] [0] [9%Z] [0%Z] true 5]
           p
           [Figure_created; Set_xlim (1 - axis_margin) (2 + axis_margin);
            Set_ylim (0 - axis_margin) (0 + axis_margin)]).
  vm_compute. reflexivity.
Defined.

Lemma init_outcome_witness :
  ScanPlotter_init numpy_at_zero [] = (Failed NeedAtLeastOneArray, []) /\
  ScanPlotter_init numpy_at_zero [Scan_init; Scan_init] =
    (Failed EmptySequence, []).
Proof.
  split.
  - apply (proj1 (@PlotterRuns.init_outcome numpy_at_zero
                    SortFacts.insertion_argsort_sorts []
                    (Forall_nil _))).
    reflexivity.
  - apply (proj1 (proj2 (@PlotterRuns.init_outcome numpy_at_zero
                           SortFacts.insertion_argsort_sorts
                           [Scan_init; Scan_init]
                           ltac:(repeat constructor; discriminate)))).
    + discriminate.
    + repeat constructor.
Defined.

Lemma main_outcome_witness :
  main numpy_at_zero decimal_builtins
       [ln "AngleInDegrees"; ln "0,200,7,0"] =
  (Failed NeedAtLeastOneArray, [Printed_extracted 0]).
Proof.
  apply (proj1 (@PlotterRuns.main_outcome numpy_at_zero
                  SortFacts.insertion_argsort_sorts decimal_builtins
                  [ln "AngleInDegrees"; ln "0,200,7,0"])).
  reflexivity.
Defined.

(** [main] on a log with two scans of one point each: the first scan is
    drawn, within limits that hold the points of both. *)
Example main_draws_the_first_scan :
  main numpy_at_zero decimal_builtins
       [ln "AngleInDegrees"; ln "0,1000,7,0"; ln "ROTATION_SPEED,5.0";
        ln "AngleInDegrees"; ln "0,2000,9,0"; ln "ROTATION_SPEED,5.0"] =
  (Done tt,
   [Printed_extracted 2; Figure_created;
    Set_xlim (1 - axis_margin) (2 + axis_margin);
    Set_ylim (0 - axis_margin) (0 + axis_margin);
    Printed_help_next; Printed_help_previous; Printed_index 0;
    Scatter [1] [0] [7%Z]; Plot_shown]).
Proof. vm_compute. reflexivity. Qed.

End Examples.
